(** * goodlink-backend: the link-redirect worker (src/index.js)

    A shallow embedding of the Cloudflare worker of src/index.js and the
    properties of its redirect pipeline: slug extraction, domain
    normalisation, the datastore query, URL composition and the responses.

    Conventions.
    - A JavaScript string is a Rocq [string] whose characters are the
      string's UTF-16 code units; the model covers the strings whose code
      units are below 256 (ASCII and Latin-1). The resolver, whose
      [encodeURIComponent] throws on other strings, is modelled a second
      time on every sequence of UTF-16 code units (module [Wide]).
    - [null] results are [None] where a function returns [string|null], and
      the JSON value [JVal Null] where it returns a JSON value.
    - Exceptions and the outbound HTTP calls are explicit: a computation of
      type [M A] threads the list of requests issued so far and ends in a
      value or in a thrown error. *)

From Stdlib Require Import String Ascii List Bool Arith NArith ZArith Lia.
Import ListNotations.
Local Open Scope string_scope.

(* ------------------------------------------------------------------ *)
(** * Strings: the String.prototype methods the worker calls *)

Module Str.

(** The code unit of a character. *)
Definition code (c : ascii) : N := N_of_ascii c.

Definition between (lo hi : N) (c : ascii) : bool :=
  ((lo <=? code c) && (code c <=? hi))%N.

Definition is_ascii_upper (c : ascii) : bool := between 65 90 c.
Definition is_ascii_lower (c : ascii) : bool := between 97 122 c.
Definition is_digit (c : ascii) : bool := between 48 57 c.

(** [String.prototype.toLowerCase] on one code unit below 256: A-Z and the
    Latin-1 capitals U+00C0..U+00DE (the multiplication sign U+00D7 apart)
    move up by 32. *)
Definition lower_unit (c : ascii) : ascii :=
  if is_ascii_upper c then ascii_of_N (code c + 32)
  else if between 192 222 c && negb (code c =? 215)%N then ascii_of_N (code c + 32)
  else c.

Fixpoint toLowerCase (s : string) : string :=
  match s with
  | EmptyString => EmptyString
  | String c s' => String (lower_unit c) (toLowerCase s')
  end.

(** [s.split(sep)] for a one-character separator: the pieces between the
    occurrences of [sep]; never the empty array. *)
Fixpoint split (sep : ascii) (s : string) : list string :=
  match s with
  | EmptyString => [EmptyString]
  | String c s' =>
      if Ascii.eqb c sep then EmptyString :: split sep s'
      else match split sep s' with
           | piece :: pieces => String c piece :: pieces
           | [] => [String c EmptyString]
           end
  end.

(** [arr[0]] of an array of strings that [split] returned. *)
Definition first (pieces : list string) : string := hd EmptyString pieces.

(** [s.startsWith(p)]. *)
Definition startsWith (s p : string) : bool := String.prefix p s.

(** Truthiness of a string: the empty string is falsy. *)
Definition truthy (s : string) : bool :=
  match s with EmptyString => false | _ => true end.

(** [drop n s]: [s.slice(n)]. *)
Fixpoint drop (n : nat) (s : string) : string :=
  match n, s with
  | O, _ => s
  | S n', String _ s' => drop n' s'
  | S _, EmptyString => EmptyString
  end.

(** [take n s]: [s.slice(0, n)]. *)
Fixpoint take (n : nat) (s : string) : string :=
  match n, s with
  | O, _ => EmptyString
  | S n', String c s' => String c (take n' s')
  | S _, EmptyString => EmptyString
  end.

Fixpoint forallb (p : ascii -> bool) (s : string) : bool :=
  match s with
  | EmptyString => true
  | String c s' => p c && forallb p s'
  end.

(** [pieces.join(sep)]. *)
Fixpoint join (sep : string) (pieces : list string) : string :=
  match pieces with
  | [] => EmptyString
  | [p] => p
  | p :: rest => p ++ sep ++ join sep rest
  end.

End Str.

(* ------------------------------------------------------------------ *)
(** * Regular expressions

    The three patterns of the worker ([/^\//], [/^www\./] and
    [/^[a-z0-9-]{3,30}$/i]) are terms of a small regular-expression syntax,
    run by a backtracking matcher in the continuation style of the
    ECMAScript specification (22.2.2): a matcher takes the position, the
    rest of the input and a continuation, and answers with the end of the
    match. *)

Module RegExp.

Inductive regex : Type :=
| Chr (c : ascii)                        (* a literal character *)
| Cls (ranges : list (ascii * ascii))    (* a class of ranges [lo-hi] *)
| Bol                                    (* ^ *)
| Eol                                    (* $, no multiline flag *)
| Seq (r1 r2 : regex)
| Rep (r : regex) (lo hi : nat).         (* r{lo,hi}, greedy *)

(** [Canonicalize] (22.2.5.6) without the unicode flag: with [ignoreCase] a
    code unit is replaced by its upper-case code unit, as a number because
    two Latin-1 letters have their capital above 255; the sharp s keeps its
    value (its capital is two units). *)
Definition canonicalize (ignoreCase : bool) (c : ascii) : N :=
  let n := Str.code c in
  if negb ignoreCase then n
  else if Str.is_ascii_lower c then (n - 32)%N
  else if (n =? 181)%N then 924%N
  else if (n =? 255)%N then 376%N
  else if Str.between 224 254 c && negb (n =? 247)%N then (n - 32)%N
  else n.

(** The characters [lo..hi]. *)
Definition range_chars (lo hi : ascii) : list ascii :=
  map (fun k => ascii_of_nat (nat_of_ascii lo + k))
      (seq 0 (S (nat_of_ascii hi) - nat_of_ascii lo)).

(** A class matches [c] when one of its members has the canonical form of [c]. *)
Definition class_matches (ignoreCase : bool) (ranges : list (ascii * ascii))
    (c : ascii) : bool :=
  existsb
    (fun r => existsb (fun a => (canonicalize ignoreCase a =? canonicalize ignoreCase c)%N)
                      (range_chars (fst r) (snd r)))
    ranges.

(** A continuation: position and rest of the input to the end of the match. *)
Definition cont : Type := nat -> string -> option nat.

Fixpoint m (i : bool) (r : regex) (pos : nat) (rest : string) (k : cont)
  {struct r} : option nat :=
  match r with
  | Chr a =>
      match rest with
      | String c rest' =>
          if (canonicalize i a =? canonicalize i c)%N then k (S pos) rest' else None
      | EmptyString => None
      end
  | Cls ranges =>
      match rest with
      | String c rest' => if class_matches i ranges c then k (S pos) rest' else None
      | EmptyString => None
      end
  | Bol => if (pos =? 0)%nat then k pos rest else None
  | Eol => match rest with EmptyString => k pos rest | String _ _ => None end
  | Seq r1 r2 => m i r1 pos rest (fun p s => m i r2 p s k)
  | Rep r' lo hi =>
      (fix rep (lo hi pos : nat) (rest : string) {struct hi} : option nat :=
         match hi with
         | O => if (lo =? 0)%nat then k pos rest else None
         | S hi' =>
             match m i r' pos rest (fun p s => rep (pred lo) hi' p s) with
             | Some e => Some e
             | None => if (lo =? 0)%nat then k pos rest else None
             end
         end) lo hi pos rest
  end.

(** The first match of [r] at or after [pos]: its start and its end. *)
Fixpoint search (i : bool) (r : regex) (pos : nat) (s : string)
  : option (nat * nat) :=
  match m i r pos s (fun p _ => Some p) with
  | Some e => Some (pos, e)
  | None =>
      match s with
      | String _ s' => search i r (S pos) s'
      | EmptyString => None
      end
  end.

(** [RegExp.prototype.exec], the extent of the match only. *)
Definition exec (i : bool) (r : regex) (s : string) : option (nat * nat) :=
  search i r 0 s.

(** [RegExp.prototype.test]. *)
Definition test (i : bool) (r : regex) (s : string) : bool :=
  match exec i r s with Some _ => true | None => false end.

(** [s.replace(r, repl)] for a pattern without the global flag and a
    replacement without [$]: the first match is replaced. *)
Definition replace (i : bool) (r : regex) (repl s : string) : string :=
  match exec i r s with
  | Some (b, e) => Str.take b s ++ repl ++ Str.drop e s
  | None => s
  end.

End RegExp.

Import RegExp.

(* ------------------------------------------------------------------ *)
(** * extractSlug (index.js, lines 24-40) *)

(** [/^\//] *)
Definition leadingSlash : regex := Seq Bol (Chr "/").

(** [/^[a-z0-9-]{3,30}$/i] *)
Definition slugPattern : regex :=
  Seq Bol (Seq (Rep (Cls [("a", "z"); ("0", "9"); ("-", "-")]) 3 30) Eol)%char.

Definition extractSlug (pathname : string) : option string :=
  let path :=
    Str.first (Str.split "#" (Str.first (Str.split "?"
      (replace false leadingSlash "" pathname)))) in
  if negb (Str.truthy path) || (path =? "") || (path =? "index.html")
     || Str.startsWith path "api/"
  then None
  else if negb (test true slugPattern path) then None
  else Some (Str.toLowerCase path).

(** * Domain normalisation (index.js, line 166) *)

(** [/^www\./] *)
Definition wwwPrefix : regex :=
  Seq Bol (Seq (Chr "w") (Seq (Chr "w") (Seq (Chr "w") (Chr "."))))%char.

(** [hostname.replace(/^www\./, '')], the value bound to [domain]. *)
Definition domain (hostname : string) : string :=
  replace false wwwPrefix "" hostname.


(* ------------------------------------------------------------------ *)
(** * encodeURIComponent

    ECMAScript 19.2.6.5 on code units below 256: the unreserved characters
    (letters, digits and [-_.!~*'()]) stand for themselves, every other code
    unit is written as the percent-escapes of its UTF-8 bytes (one byte
    below 128, two from 128 to 255). No surrogate is among these code
    units, so the URIError of the function cannot arise here;
    [Wide.encodeURIComponent] is the function on every string, with the
    error, and agrees with this one (lemma [encodeURIComponent_units]). *)

Module URI.

Definition hex_digit (n : N) : ascii :=
  if (n <? 10)%N then ascii_of_N (48 + n) else ascii_of_N (55 + n).

Definition percent (byte : N) : string :=
  String "%" (String (hex_digit (byte / 16)) (String (hex_digit (byte mod 16)) "")).

Definition is_mark (c : ascii) : bool :=
  existsb (Ascii.eqb c) (list_ascii_of_string "-_.!~*'()").

Definition unreserved (c : ascii) : bool :=
  Str.is_ascii_upper c || Str.is_ascii_lower c || Str.is_digit c || is_mark c.

Definition encode_unit (c : ascii) : string :=
  if unreserved c then String c ""
  else if (Str.code c <? 128)%N then percent (Str.code c)
  else percent (192 + Str.code c / 64) ++ percent (128 + Str.code c mod 64).

Fixpoint encodeURIComponent (s : string) : string :=
  match s with
  | EmptyString => EmptyString
  | String c s' => encode_unit c ++ encodeURIComponent s'
  end.

End URI.

Import URI.

(* ------------------------------------------------------------------ *)
(** * Values

    The values a column of a [links] row holds in the datastore's JSON
    answer (a string, a boolean, [null]) and [undefined] for a field that
    is absent. Numbers and nested values in a column are outside the model. *)

Inductive value : Type :=
| VUndefined
| VNull
| VBool (b : bool)
| VString (s : string).

(** ToBoolean. *)
Definition truthy (v : value) : bool :=
  match v with
  | VBool b => b
  | VString s => Str.truthy s
  | VUndefined | VNull => false
  end.

(** ToString, as a template literal and the URL and URLSearchParams
    arguments apply it. *)
Definition to_string (v : value) : string :=
  match v with
  | VUndefined => "undefined"
  | VNull => "null"
  | VBool true => "true"
  | VBool false => "false"
  | VString s => s
  end.

(** [v === undefined] and [v === false]. *)
Definition is_undefined (v : value) : bool :=
  match v with VUndefined => true | _ => false end.

Definition is_false (v : value) : bool :=
  match v with VBool false => true | _ => false end.

(** A row of [links] with the seven selected columns (section 3 of the
    specification, LinkRecord). *)
Module Link.
Record t : Type := mk {
  target_url : value;
  parameter_pass_through : value;
  utm_source : value;
  utm_medium : value;
  utm_campaign : value;
  utm_content : value;
  status : value
}.
End Link.

(** What [response.json()] can resolve to: a scalar, a row object, or an
    array. An object is seen through its seven columns: an object with a
    member named [0] or [length] is outside the model. *)
#[warnings="-register-all"] Inductive json : Type :=
| JVal (v : value)
| JObj (row : Link.t)
| JArr (items : list json).

Definition null : json := JVal VNull.

Definition truthy_json (j : json) : bool :=
  match j with
  | JVal v => truthy v
  | JObj _ | JArr _ => true
  end.

(* ------------------------------------------------------------------ *)
(** * The platform: URL, URLSearchParams, Response, fetch *)

(** A URL object: the getters the worker reads, and the pieces its
    serialisation is made of. *)
Record URL : Type := mkURL {
  protocol : string;
  host : string;
  hostname : string;
  pathname : string;
  search : string;
  searchParams : list (string * string);
  hash : string
}.

(** The parsers and serialisers of the runtime (WHATWG URL), which the
    repository does not contain: every property below holds for any of them. *)
Record Platform : Type := mkPlatform {
  (** [new URL(s)]: [None] when the constructor throws a TypeError. *)
  URL_parse : string -> option URL;
  (** [url.toString()], the href. *)
  URL_href : URL -> string;
  (** [new URLSearchParams(s)], as the list [entries()] iterates. *)
  URLSearchParams_parse : string -> list (string * string);
  (** [params.toString()]. *)
  URLSearchParams_serialize : list (string * string) -> string
}.

Module Params.

(** [params.get(name)]: the value of the first pair named [name]. *)
Fixpoint get (name : string) (l : list (string * string)) : option string :=
  match l with
  | [] => None
  | (k, v) :: rest => if k =? name then Some v else get name rest
  end.

Fixpoint remove (name : string) (l : list (string * string))
  : list (string * string) :=
  match l with
  | [] => []
  | (k, v) :: rest =>
      if k =? name then remove name rest else (k, v) :: remove name rest
  end.

(** [params.set(name, value)]: the first pair named [name] takes the value
    and the other pairs of that name go; without such a pair, one is
    appended. *)
Fixpoint set (name val : string) (l : list (string * string))
  : list (string * string) :=
  match l with
  | [] => [(name, val)]
  | (k, v) :: rest =>
      if k =? name then (name, val) :: remove name rest
      else (k, v) :: set name val rest
  end.

End Params.

(** A response of the worker. *)
Module Response.
Record t : Type := mk {
  status : Z;
  body : option string;
  headers : list (string * string)
}.
End Response.

(** An outbound request, as [fetch(url, init)] receives it. *)
Record http_request : Type := mkRequest {
  req_url : string;
  req_method : string;
  req_headers : list (string * string)
}.

(** The datastore's answer to an outbound request: the HTTP status, and
    what reading the body gives; [None] when [text()] or [json()] rejects
    (the stream fails, the body is not JSON). *)
Record reply : Type := mkReply {
  reply_status : Z;
  reply_text : option string;
  reply_json : option json
}.

(** [fetch] rejects (a transport fault) or resolves to a reply. *)
Inductive fetch_outcome : Type :=
| Rejected
| Resolved (r : reply).

(** [response.ok]. *)
Definition ok (r : reply) : bool :=
  ((200 <=? reply_status r) && (reply_status r <=? 299))%Z.

(* ------------------------------------------------------------------ *)
(** * Computations: exceptions and the trace of outbound requests *)

Inductive error : Type :=
| TypeError
| RangeError
| URIError        (* encodeURIComponent on a lone surrogate *)
| NetworkFault    (* fetch rejected *)
| BodyFault.      (* text() or json() rejected *)

Inductive outcome (A : Type) : Type :=
| Ok (a : A)
| Throw (e : error).

Arguments Ok {A} a.
Arguments Throw {A} e.

Definition M (A : Type) : Type :=
  list http_request -> outcome A * list http_request.

Definition ret {A} (a : A) : M A := fun tr => (Ok a, tr).

Definition throw {A} (e : error) : M A := fun tr => (Throw e, tr).

Definition bind {A B} (c : M A) (k : A -> M B) : M B :=
  fun tr =>
    match c tr with
    | (Ok a, tr') => k a tr'
    | (Throw e, tr') => (Throw e, tr')
    end.

(** [try { c } catch (error) { h error }]. *)
Definition try_catch {A} (c : M A) (h : error -> M A) : M A :=
  fun tr =>
    match c tr with
    | (Ok a, tr') => (Ok a, tr')
    | (Throw e, tr') => h e tr'
    end.

Declare Scope js_scope.
Delimit Scope js_scope with js.
Notation "x <- c ;; k" := (bind c (fun x => k))
  (at level 61, c at next level, right associativity) : js_scope.
Notation "c ;; k" := (bind c (fun _ => k))
  (at level 61, right associativity) : js_scope.
Local Open Scope js_scope.

(** Run a computation from the empty trace. *)
Definition run {A} (c : M A) : outcome A * list http_request := c [].

(** [console.log] and [console.error] write to the log only. *)
Definition console_log : M unit := ret tt.
Definition console_error : M unit := ret tt.

(** Property access [j.f] on a JSON value for one of the seven columns: a
    TypeError on [undefined] and [null], [undefined] on a value that is not
    a row. *)
Definition get (f : Link.t -> value) (j : json) : M value :=
  match j with
  | JVal VUndefined | JVal VNull => throw TypeError
  | JObj row => ret (f row)
  | JVal _ | JArr _ => ret VUndefined
  end.

(** [j.length === 0]. *)
Definition length_is_zero (j : json) : M bool :=
  match j with
  | JVal VUndefined | JVal VNull => throw TypeError
  | JArr [] => ret true
  | JVal (VString EmptyString) => ret true
  | _ => ret false
  end.

(** [j[0]]. *)
Definition index0 (j : json) : M json :=
  match j with
  | JVal VUndefined | JVal VNull => throw TypeError
  | JArr (x :: _) => ret x
  | JVal (VString (String c _)) => ret (JVal (VString (String c "")))
  | _ => ret (JVal VUndefined)
  end.

(* ------------------------------------------------------------------ *)
(** * The worker *)

Section Worker.

(** The runtime's URL functions, and the datastore as the worker sees it
    through the global [fetch]. *)
Variable P : Platform.
Variable datastore : http_request -> fetch_outcome.

(** [new URL(s)]. *)
Definition new_URL (s : string) : M URL :=
  match URL_parse P s with
  | Some u => ret u
  | None => throw TypeError
  end.

(** [url.searchParams.set(name, value)]: the list changes and the URL's
    query follows it (URL standard, the update steps of URLSearchParams). *)
Definition searchParams_set (name val : string) (u : URL) : URL :=
  let l := Params.set name val (searchParams u) in
  let q := URLSearchParams_serialize P l in
  mkURL (protocol u) (host u) (hostname u) (pathname u)
        (if Str.truthy q then "?" ++ q else "") l (hash u).

(** The global [fetch(url, init)]: the call is recorded in the trace, then
    the promise rejects or resolves as the datastore decides. *)
Definition http_fetch (req : http_request) : M reply :=
  fun tr =>
    match datastore req with
    | Rejected => (Throw NetworkFault, (tr ++ [req])%list)
    | Resolved r => (Ok r, (tr ++ [req])%list)
    end.

(** [response.text()] and [response.json()]. *)
Definition text (r : reply) : M string :=
  match reply_text r with Some s => ret s | None => throw BodyFault end.

Definition json_of (r : reply) : M json :=
  match reply_json r with Some j => ret j | None => throw BodyFault end.

(** [new Response(body, { status, headers })] with a string body: without a
    Content-Type among the headers given, the body's type is added (Fetch
    standard, the Response constructor). *)
Definition has_header (name : string) (hs : list (string * string)) : bool :=
  existsb (fun h => Str.toLowerCase (fst h) =? Str.toLowerCase name) hs.

Definition new_Response (body : string) (status : Z)
    (headers : list (string * string)) : Response.t :=
  Response.mk status (Some body)
    (if has_header "Content-Type" headers then headers
     else (headers ++ [("Content-Type", "text/plain;charset=UTF-8")])%list).

(** [Response.redirect(url, status)] (Fetch standard): the URL is parsed by
    the parser of [new URL] (a worker has no base URL to resolve a relative
    one against), a TypeError when that fails; a RangeError when the status
    is not a redirect status; the Location header is the serialised URL. *)
Definition is_redirect_status (status : Z) : bool :=
  existsb (Z.eqb status) [301; 302; 303; 307; 308]%Z.

Definition Response_redirect (url : value) (status : Z) : M Response.t :=
  match URL_parse P (to_string url) with
  | None => throw TypeError
  | Some u =>
      if is_redirect_status status
      then ret (Response.mk status None [("Location", URL_href P u)])
      else throw RangeError
  end.

(** ** buildTargetUrl (index.js, lines 49-84) *)

Definition utm_keys : list string :=
  ["utm_source"; "utm_medium"; "utm_campaign"; "utm_content"].

(** [keys.includes(key)]. *)
Definition includes (keys : list string) (key : string) : bool :=
  existsb (String.eqb key) keys.

(** Lines 52-76: the parameters are set on the parsed [target]. *)
Definition composeParams (target : URL) (linkData : json) (requestUrl : URL)
  : M URL :=
  let requestParams := URLSearchParams_parse P (search requestUrl) in
  (* Add UTM parameters if configured *)
  source <- get Link.utm_source linkData ;;
  let target :=
    if truthy source then searchParams_set "utm_source" (to_string source) target
    else target in
  medium <- get Link.utm_medium linkData ;;
  let target :=
    if truthy medium then searchParams_set "utm_medium" (to_string medium) target
    else target in
  campaign <- get Link.utm_campaign linkData ;;
  let target :=
    if truthy campaign
    then searchParams_set "utm_campaign" (to_string campaign) target
    else target in
  content <- get Link.utm_content linkData ;;
  let target :=
    if truthy content
    then searchParams_set "utm_content" (to_string content) target
    else target in
  (* Pass through query parameters if enabled *)
  pass <- get Link.parameter_pass_through linkData ;;
  if truthy pass then
    ret (fold_left
           (fun target entry =>
              (* Don't override UTM parameters that were just set *)
              if negb (includes utm_keys (fst entry))
              then searchParams_set (fst entry) (snd entry) target
              else target)
           requestParams target)
  else ret target.

Definition buildTargetUrl (targetUrl : value) (linkData : json)
    (requestUrl : URL) : M value :=
  try_catch
    (target <- new_URL (to_string targetUrl) ;;
     target <- composeParams target linkData requestUrl ;;
     ret (VString (URL_href P target)))
    (fun error =>
       (* If URL parsing fails, return original target_url *)
       console_error ;;
       ret targetUrl).

(** ** getLinkFromSupabase (index.js, lines 94-133) *)

Definition select_columns : string :=
  "target_url,parameter_pass_through,utm_source,utm_medium,utm_campaign,utm_content,status".

Definition getLinkFromSupabase (slug domain : string)
    (supabaseUrl supabaseKey : value) : M json :=
  try_catch
    (let url :=
       to_string supabaseUrl ++ "/rest/v1/links?slug=eq."
       ++ encodeURIComponent slug ++ "&domain=eq."
       ++ encodeURIComponent domain ++ "&select=" ++ select_columns in
     response <- http_fetch
       (mkRequest url "GET"
          [("apikey", to_string supabaseKey);
           ("Authorization", "Bearer " ++ to_string supabaseKey);
           ("Content-Type", "application/json");
           ("Prefer", "return=representation")]) ;;
     if negb (ok response) then
       _ <- text response ;;
       console_error ;;
       ret null
     else
       data <- json_of response ;;
       empty <- (if negb (truthy_json data) then ret true
                 else length_is_zero data) ;;
       if empty then ret null
       else
         link <- index0 data ;;
         (* Check status if column exists *)
         status <- get Link.status link ;;
         if negb (is_undefined status) && is_false status
         then ret null (* Link is inactive *)
         else ret link)
    (fun error =>
       console_error ;;
       ret null).

(** ** The handler (index.js, lines 139-205) *)

Record Request : Type := mkInbound {
  method : string;
  url : string
}.

Record Env : Type := mkEnv {
  SUPABASE_URL : value;
  SUPABASE_SERVICE_ROLE_KEY : value
}.

Definition not_found : Response.t :=
  new_Response "Link not found" 404 [("Content-Type", "text/plain")].

Definition fetch (request : Request) (env : Env) : M Response.t :=
  try_catch
    ((* Check for required environment variables *)
     if negb (truthy (SUPABASE_URL env))
        || negb (truthy (SUPABASE_SERVICE_ROLE_KEY env))
     then
       console_error ;;
       ret (new_Response "Service configuration error" 500 [])
     else
       url <- new_URL (url request) ;;
       let hostname := hostname url in
       let pathname := pathname url in
       (* Extract slug from path *)
       match extractSlug pathname with
       | None => ret not_found
       | Some EmptyString => ret not_found
       | Some slug =>
           (* Remove www. prefix if present *)
           let domain := domain hostname in
           console_log ;;
           linkData <- getLinkFromSupabase slug domain (SUPABASE_URL env)
                         (SUPABASE_SERVICE_ROLE_KEY env) ;;
           missing <- (if negb (truthy_json linkData) then ret true
                       else (target_url <- get Link.target_url linkData ;;
                             ret (negb (truthy target_url)))) ;;
           if missing then
             (* Link not found or inactive *)
             ret not_found
           else
             target_url <- get Link.target_url linkData ;;
             finalUrl <- buildTargetUrl target_url linkData url ;;
             console_log ;;
             (* Perform redirect (301 permanent redirect) *)
             Response_redirect finalUrl 301
       end)
    (fun error =>
       console_error ;;
       ret (new_Response "Internal server error" 500
              [("Content-Type", "text/plain")])).

End Worker.

(* ------------------------------------------------------------------ *)
(** * The resolver on every JavaScript string

    [getLinkFromSupabase] above takes its slug and domain among the
    strings of code units below 256, where [encodeURIComponent] always
    succeeds. Here the two are arbitrary sequences of UTF-16 code units,
    and [encodeURIComponent] is the whole of ECMAScript 19.2.6.5 with its
    URIError on a lone surrogate. On the strings of code units below 256
    the two models agree (lemmas [encodeURIComponent_units] and
    [getLinkFromSupabase_units] below). *)

Module Wide.

(** A UTF-16 code unit: its high byte and its low byte. *)
Definition unit16 : Type := (ascii * ascii)%type.

(** A JavaScript string. *)
Definition wstring : Type := list unit16.

Definition code (u : unit16) : N := (256 * Str.code (fst u) + Str.code (snd u))%N.

(** A string of code units below 256, as a JavaScript string. *)
Definition units (s : string) : wstring :=
  map (fun c => (Ascii.zero, c)) (list_ascii_of_string s).

(** The leading surrogates U+D800..U+DBFF and the trailing ones
    U+DC00..U+DFFF. *)
Definition is_lead (u : unit16) : bool := Str.between 216 219 (fst u).
Definition is_trail (u : unit16) : bool := Str.between 220 223 (fst u).

(** The code point of a surrogate pair. *)
Definition pair_point (lead trail : unit16) : N :=
  (65536 + (code lead - 55296) * 1024 + (code trail - 56320))%N.

(** The UTF-8 octets of a code point. *)
Definition utf8 (cp : N) : list N :=
  if (cp <? 128)%N then [cp]
  else if (cp <? 2048)%N then [192 + cp / 64; 128 + cp mod 64]%N
  else if (cp <? 65536)%N
  then [224 + cp / 4096; 128 + (cp / 64) mod 64; 128 + cp mod 64]%N
  else [240 + cp / 262144; 128 + (cp / 4096) mod 64;
        128 + (cp / 64) mod 64; 128 + cp mod 64]%N.

(** Each octet as [%XX]. *)
Definition escape (octets : list N) : string :=
  fold_right (fun b rest => URI.percent b ++ rest) EmptyString octets.

(** [encodeURIComponent(s)]: [None] when it throws the URIError. An
    unreserved character stands for itself; otherwise the code point at
    the position is escaped, and a surrogate that is not the lead of a
    pair is the error. *)
Fixpoint encodeURIComponent (s : wstring) : option string :=
  match s with
  | [] => Some EmptyString
  | u :: rest =>
      if Ascii.eqb (fst u) Ascii.zero && URI.unreserved (snd u)
      then option_map (String (snd u)) (encodeURIComponent rest)
      else if is_trail u then None
      else if is_lead u then
        match rest with
        | v :: rest' =>
            if is_trail v
            then option_map (append (escape (utf8 (pair_point u v))))
                   (encodeURIComponent rest')
            else None
        | [] => None
        end
      else option_map (append (escape (utf8 (code u))))
             (encodeURIComponent rest)
  end.

(** The call inside the template literal of line 98. *)
Definition encode (s : wstring) : M string :=
  match encodeURIComponent s with
  | Some e => ret e
  | None => throw URIError
  end.

(** getLinkFromSupabase (index.js, lines 94-133) for any slug and domain. *)
Definition getLinkFromSupabase (datastore : http_request -> fetch_outcome)
    (slug domain : wstring) (supabaseUrl supabaseKey : value) : M json :=
  try_catch
    (slug_ <- encode slug ;;
     domain_ <- encode domain ;;
     let url :=
       to_string supabaseUrl ++ "/rest/v1/links?slug=eq."
       ++ slug_ ++ "&domain=eq."
       ++ domain_ ++ "&select=" ++ select_columns in
     response <- http_fetch datastore
       (mkRequest url "GET"
          [("apikey", to_string supabaseKey);
           ("Authorization", "Bearer " ++ to_string supabaseKey);
           ("Content-Type", "application/json");
           ("Prefer", "return=representation")]) ;;
     if negb (ok response) then
       _ <- text response ;;
       console_error ;;
       ret null
     else
       data <- json_of response ;;
       empty <- (if negb (truthy_json data) then ret true
                 else length_is_zero data) ;;
       if empty then ret null
       else
         link <- index0 data ;;
         (* Check status if column exists *)
         status <- get Link.status link ;;
         if negb (is_undefined status) && is_false status
         then ret null (* Link is inactive *)
         else ret link)
    (fun error =>
       console_error ;;
       ret null).

(** A string without a lone surrogate: every lead is followed by a trail,
    and no trail stands elsewhere. *)
Fixpoint well_formed (s : wstring) : bool :=
  match s with
  | [] => true
  | u :: rest =>
      if is_trail u then false
      else if is_lead u then
        match rest with
        | v :: rest' => is_trail v && well_formed rest'
        | [] => false
        end
      else well_formed rest
  end.

(** Reading the octets back (a decoder for what the encoder writes): the
    code unit of a number below 65536, and the code units of the code
    points that a list of UTF-8 octets spells. *)
Definition unit_of (n : N) : unit16 :=
  (ascii_of_N (n / 256), ascii_of_N (n mod 256)).

Fixpoint utf8_units (octets : list N) : wstring :=
  match octets with
  | [] => []
  | b1 :: r1 =>
      if (b1 <? 128)%N then unit_of b1 :: utf8_units r1
      else
        match r1 with
        | [] => []
        | b2 :: r2 =>
            if (b1 <? 224)%N
            then unit_of ((b1 - 192) * 64 + (b2 - 128)) :: utf8_units r2
            else
              match r2 with
              | [] => []
              | b3 :: r3 =>
                  if (b1 <? 240)%N
                  then unit_of ((b1 - 224) * 4096 + (b2 - 128) * 64 + (b3 - 128))
                       :: utf8_units r3
                  else
                    match r3 with
                    | [] => []
                    | b4 :: r4 =>
                        let cp := ((b1 - 240) * 262144 + (b2 - 128) * 4096
                                   + (b3 - 128) * 64 + (b4 - 128))%N in
                        unit_of (55296 + (cp - 65536) / 1024)
                        :: unit_of (56320 + (cp - 65536) mod 1024)
                        :: utf8_units r4
                    end
              end
        end
  end.

(** U+D800, a lead surrogate, and the pair U+D83D U+DE00 of U+1F600. *)
Definition lone_surrogate : wstring := [(ascii_of_nat 216, Ascii.zero)].

Definition grinning_face : wstring :=
  [(ascii_of_nat 216, ascii_of_nat 61); (ascii_of_nat 222, Ascii.zero)].

End Wide.


(* ------------------------------------------------------------------ *)
(** * A reference platform

    A small URL parser and serialiser for the URLs of the examples:
    [scheme://host[:port][/path][?query][#fragment]] written with
    characters that need no escaping. It instantiates the general
    statements at concrete requests. *)

Module Reference.

(** The longest prefix whose characters satisfy [p], and what follows it. *)
Fixpoint span (p : ascii -> bool) (s : string) : string * string :=
  match s with
  | EmptyString => (EmptyString, EmptyString)
  | String c s' =>
      if p c then let (a, b) := span p s' in (String c a, b)
      else (EmptyString, s)
  end.

Definition is_alpha (c : ascii) : bool :=
  Str.is_ascii_upper c || Str.is_ascii_lower c.

Definition is_scheme_char (c : ascii) : bool :=
  is_alpha c || Str.is_digit c
  || existsb (Ascii.eqb c) (list_ascii_of_string "+-.").

Definition none_of (stops : string) (c : ascii) : bool :=
  negb (existsb (Ascii.eqb c) (list_ascii_of_string stops)).

Definition parse_pair (piece : string) : string * string :=
  let (k, rest) := span (none_of "=") piece in (k, Str.drop 1 rest).

Definition parse_query (q : string) : list (string * string) :=
  let q := match q with String "?" q' => q' | _ => q end in
  map parse_pair (filter Str.truthy (Str.split "&" q)).

Definition serialize_query (l : list (string * string)) : string :=
  Str.join "&" (map (fun kv => fst kv ++ "=" ++ snd kv) l).

Definition parse (s : string) : option URL :=
  let (scheme, rest) := span is_scheme_char s in
  match scheme with
  | EmptyString => None
  | String c _ =>
      if is_alpha c && String.prefix "://" rest then
        let (host, rest) := span (none_of "/?#") (Str.drop 3 rest) in
        let (path, rest) := span (none_of "?#") rest in
        let (query, fragment) := span (none_of "#") rest in
        if Str.truthy host then
          Some (mkURL (scheme ++ ":") host (fst (span (none_of ":") host))
                  (if Str.truthy path then path else "/")
                  (if query =? "?" then "" else query)
                  (parse_query query)
                  (if fragment =? "#" then "" else fragment))
        else None
      else None
  end.

Definition href (u : URL) : string :=
  protocol u ++ "//" ++ host u ++ pathname u ++ search u ++ hash u.

Definition platform : Platform :=
  mkPlatform parse href parse_query serialize_query.

End Reference.


(* ------------------------------------------------------------------ *)
(** * The specification's wording, as definitions to compare with *)

Module Spec.

(** Section 4.1: the characters of a slug. *)
Definition is_slug_char (c : ascii) : bool :=
  Str.is_ascii_lower c || Str.is_ascii_upper c || Str.is_digit c
  || Ascii.eqb c "-".

(** Strip exactly one leading [/]. *)
Definition strip_slash (s : string) : string :=
  match s with
  | String "/" s' => s'
  | _ => s
  end.

(** The part of [s] before the first character that satisfies [stop]. *)
Fixpoint upto (stop : ascii -> bool) (s : string) : string :=
  match s with
  | EmptyString => EmptyString
  | String c s' => if stop c then EmptyString else String c (upto stop s')
  end.

Definition query_or_fragment (c : ascii) : bool :=
  Ascii.eqb c "?" || Ascii.eqb c "#".

(** Lower-casing of the letters A-Z only. *)
Definition ascii_lower (c : ascii) : ascii :=
  if Str.is_ascii_upper c then ascii_of_N (Str.code c + 32) else c.

Fixpoint lower (s : string) : string :=
  match s with
  | EmptyString => EmptyString
  | String c s' => String (ascii_lower c) (lower s')
  end.

(** The shape of a slug: 3 to 30 slug characters. *)
Definition slug_shape (s : string) : bool :=
  (3 <=? String.length s)%nat && (String.length s <=? 30)%nat
  && Str.forallb is_slug_char s.

(** Section 4.1, the contract of the slug extractor. *)
Definition slug_of_path (pathname : string) : option string :=
  let rest := upto query_or_fragment (strip_slash pathname) in
  if (rest =? "") || (rest =? "index.html") || String.prefix "api/" rest
     || negb (slug_shape rest)
  then None
  else Some (lower rest).

(** Section 6, the outbound call: the query parameters of a URL. *)
Definition query (params : list (string * string)) : string :=
  Str.join "&" (map (fun kv => fst kv ++ "=" ++ snd kv) params).

Definition columns : list string :=
  ["target_url"; "parameter_pass_through"; "utm_source"; "utm_medium";
   "utm_campaign"; "utm_content"; "status"].

(** Section 6: GET [{BASE_URL}/rest/v1/links] with the three query
    parameters and the four headers. *)
Definition lookup_request (base credential slug domain : string)
  : http_request :=
  mkRequest
    (base ++ "/rest/v1/links" ++ "?"
     ++ query [("slug", "eq." ++ encodeURIComponent slug);
               ("domain", "eq." ++ encodeURIComponent domain);
               ("select", Str.join "," columns)])
    "GET"
    [("apikey", credential);
     ("Authorization", "Bearer " ++ credential);
     ("Content-Type", "application/json");
     ("Prefer", "return=representation")].

(** A percent-encoded value is made of unreserved characters and
    percent-escapes: none of the characters that delimit a query. *)
Definition escaped_char (c : ascii) : bool :=
  URI.unreserved c || Ascii.eqb c "%".

(** Percent-decoding, as the receiver of the query applies it: the escapes
    are read back to bytes, the bytes to code units below 256 (UTF-8, one
    or two bytes). *)
Definition hex_value (c : ascii) : option N :=
  if Str.is_digit c then Some (Str.code c - 48)%N
  else if Str.between 65 70 c then Some (Str.code c - 55)%N
  else if Str.between 97 102 c then Some (Str.code c - 87)%N
  else None.

Fixpoint unescape (s : string) : option (list N) :=
  match s with
  | EmptyString => Some []
  | String "%" (String h1 (String h2 rest)) =>
      match hex_value h1, hex_value h2 with
      | Some a, Some b => option_map (cons (16 * a + b)%N) (unescape rest)
      | _, _ => None
      end
  | String "%" _ => None
  | String c rest => option_map (cons (Str.code c)) (unescape rest)
  end.

Fixpoint utf8_decode (bytes : list N) : option string :=
  match bytes with
  | [] => Some EmptyString
  | b :: rest =>
      if (b <? 128)%N then option_map (String (ascii_of_N b)) (utf8_decode rest)
      else if (b =? 194)%N || (b =? 195)%N then
        match rest with
        | c :: rest' =>
            if (128 <=? c)%N && (c <? 192)%N
            then option_map (String (ascii_of_N ((b - 192) * 64 + (c - 128))))
                   (utf8_decode rest')
            else None
        | [] => None
        end
      else None
  end.

Definition percent_decode (s : string) : option string :=
  match unescape s with
  | Some bytes => utf8_decode bytes
  | None => None
  end.

(** The UTF-8 bytes of a code unit below 256. *)
Definition utf8_unit (c : ascii) : list N :=
  if (Str.code c <? 128)%N then [Str.code c]
  else [(192 + Str.code c / 64)%N; (128 + Str.code c mod 64)%N].

(** Section 4.3: the datastore outcomes that count as "not found": a
    transport fault, a status outside 200..299, a body that does not read
    or parse as JSON, an empty array of rows. *)
Definition faulty (o : fetch_outcome) : bool :=
  match o with
  | Rejected => true
  | Resolved r =>
      negb (ok r)
      || match reply_json r with
         | None => true
         | Some (JArr []) => true
         | Some _ => false
         end
  end.

(** Section 4.4: the configured UTM fields are set first, in this order. *)
Definition utm_fields : list (string * (Link.t -> value)) :=
  [("utm_source", Link.utm_source); ("utm_medium", Link.utm_medium);
   ("utm_campaign", Link.utm_campaign); ("utm_content", Link.utm_content)].

Definition apply_utm (P : Platform) (row : Link.t) (target : URL) : URL :=
  fold_left
    (fun t nf =>
       if truthy (snd nf row)
       then searchParams_set P (fst nf) (to_string (snd nf row)) t
       else t)
    utm_fields target.

(** Section 4.4: every inbound parameter is set on the target, the four
    UTM names apart. *)
Definition pass_through (P : Platform) (inbound : list (string * string))
    (target : URL) : URL :=
  fold_left
    (fun t kv =>
       if includes utm_keys (fst kv) then t
       else searchParams_set P (fst kv) (snd kv) t)
    inbound target.

Definition compose (P : Platform) (target : URL) (row : Link.t)
    (inbound : list (string * string)) : URL :=
  let target := apply_utm P row target in
  if truthy (Link.parameter_pass_through row)
  then pass_through P inbound target
  else target.

(** The UTM value the record configures for the parameter [name]. *)
Definition configured (row : Link.t) (name : string) : option string :=
  match List.find (fun nf => fst nf =? name) utm_fields with
  | Some nf => if truthy (snd nf row) then Some (to_string (snd nf row)) else None
  | None => None
  end.

(** The value of the last inbound parameter named [name]. *)
Definition last_inbound (inbound : list (string * string)) (name : string)
  : option string :=
  Params.get name (rev inbound).

Definition or_else (a b : option string) : option string :=
  match a with Some _ => a | None => b end.

(** What the composed URL holds under [name]: for a UTM name the configured
    value, else the target's own; for another name the inbound value when
    the record passes parameters through, else the target's own. *)
Definition expected_param (target_params : list (string * string))
    (row : Link.t) (inbound : list (string * string)) (name : string)
  : option string :=
  if includes utm_keys name
  then or_else (configured row name) (Params.get name target_params)
  else if truthy (Link.parameter_pass_through row)
  then or_else (last_inbound inbound name) (Params.get name target_params)
  else Params.get name target_params.

End Spec.

(** The responses of section 4.5. *)
Definition config_error : Response.t :=
  Response.mk 500 (Some "Service configuration error")
    [("Content-Type", "text/plain;charset=UTF-8")].

Definition internal_error : Response.t :=
  Response.mk 500 (Some "Internal server error")
    [("Content-Type", "text/plain")].

Definition link_not_found : Response.t :=
  Response.mk 404 (Some "Link not found") [("Content-Type", "text/plain")].

Definition redirect_to (location : string) : Response.t :=
  Response.mk 301 None [("Location", location)].

(** What happens to the resolver's answer: anything without a truthy
    [target_url] is not found; a row with one goes to the composer and the
    redirect, and a throw of either is the catch-all 500. *)
Definition respond (P : Platform) (u : URL) (linkData : json)
    (tr : list http_request) : outcome Response.t * list http_request :=
  match linkData with
  | JObj row =>
      if truthy (Link.target_url row) then
        match buildTargetUrl P (Link.target_url row) (JObj row) u tr with
        | (Ok finalUrl, tr') =>
            match Response_redirect P finalUrl 301 tr' with
            | (Ok response, tr'') => (Ok response, tr'')
            | (Throw _, tr'') => (Ok internal_error, tr'')
            end
        | (Throw _, tr') => (Ok internal_error, tr')
        end
      else (Ok link_not_found, tr)
  | JVal _ | JArr _ => (Ok link_not_found, tr)
  end.

(* ------------------------------------------------------------------ *)
(** * Fixtures: the requests, rows and datastores of section 8 *)

Module Examples.

Definition env : Env :=
  mkEnv (VString "https://db.supabase.co") (VString "service-key").

Definition request : Request := mkInbound "GET" "https://goodlink.ai/abc123".

Definition request_with_query : Request :=
  mkInbound "GET" "https://www.goodlink.ai/abc123?utm_source=hack&ref=x".

(** The inbound URLs, parsed. *)
Definition inbound : URL :=
  mkURL "https:" "goodlink.ai" "goodlink.ai" "/abc123" "" [] "".

Definition inbound_with_query : URL :=
  mkURL "https:" "www.goodlink.ai" "www.goodlink.ai" "/abc123"
    "?utm_source=hack&ref=x" [("utm_source", "hack"); ("ref", "x")] "".

Definition inbound_ref : URL :=
  mkURL "https:" "goodlink.ai" "goodlink.ai" "/abc123" "?ref=x"
    [("ref", "x")] "".

(** A row with a target and nothing else. *)
Definition row_to (target : value) : Link.t :=
  Link.mk target VUndefined VUndefined VUndefined VUndefined VUndefined
    VUndefined.

Definition with_status (st : value) (row : Link.t) : Link.t :=
  Link.mk (Link.target_url row) (Link.parameter_pass_through row)
    (Link.utm_source row) (Link.utm_medium row) (Link.utm_campaign row)
    (Link.utm_content row) st.

(** [{target_url: "https://dest.example/page", utm_source: "nl",
    parameter_pass_through: pass}]. *)
Definition row_nl (pass : value) : Link.t :=
  Link.mk (VString "https://dest.example/page") pass (VString "nl")
    VUndefined VUndefined VUndefined VUndefined.

(** A datastore that answers every request with status 200 and [rows]. *)
Definition store (rows : list json) : http_request -> fetch_outcome :=
  fun _ => Resolved (mkReply 200 None (Some (JArr rows))).

(** A datastore that answers every request with [status] and no JSON. *)
Definition failing (status : Z) : http_request -> fetch_outcome :=
  fun _ => Resolved (mkReply status (Some "error") None).

(** A datastore that cannot be reached. *)
Definition unreachable : http_request -> fetch_outcome :=
  fun _ => Rejected.

(** The request the worker sends for [abc123] on [goodlink.ai]. *)
Definition lookup : http_request :=
  Spec.lookup_request "https://db.supabase.co" "service-key" "abc123"
    "goodlink.ai".

End Examples.

(* ------------------------------------------------------------------ *)
(** * Vocabulary of the further properties *)

Module Props.

(** A character of an extracted slug: a lower-case letter, a digit or a
    hyphen. *)
Definition is_canonical_char (c : ascii) : bool :=
  Str.is_ascii_lower c || Str.is_digit c || Ascii.eqb c "-".

(** The number of pairs named [name] in a parameter list. *)
Definition count (name : string) (l : list (string * string)) : nat :=
  List.length (filter (fun kv => fst kv =? name) l).

(** The names the composer sets for a row and an inbound query: a UTM name
    the row configures, or, when the row passes parameters through, a name
    of the inbound query that is not a UTM name. *)
Definition touched (row : Link.t) (inbound : list (string * string))
    (name : string) : bool :=
  if includes utm_keys name
  then match Spec.configured row name with Some _ => true | None => false end
  else truthy (Link.parameter_pass_through row)
       && existsb (fun kv => fst kv =? name) inbound.

(** The pairs whose name the composer does not set, in their order. *)
Definition untouched (row : Link.t) (inbound : list (string * string))
    (l : list (string * string)) : list (string * string) :=
  filter (fun kv => negb (touched row inbound (fst kv))) l.

(** Two URLs lead to the same place: they differ at most by their query. *)
Definition same_location (u v : URL) : Prop :=
  protocol u = protocol v /\ host u = host v /\ hostname u = hostname v
  /\ pathname u = pathname v /\ hash u = hash v.

End Props.

(* ------------------------------------------------------------------ *)
(** * Tactics *)

(** Unfold the resolver down to the datastore's answer. *)
Ltac run_resolver :=
  unfold getLinkFromSupabase, try_catch, bind, http_fetch.

(** One step of the resolver's body after a case analysis. *)
Ltac step_resolver :=
  cbv beta iota;
  unfold text, json_of, length_is_zero, index0, get, truthy_json, throw, ret,
    console_error, bind;
  cbn [negb andb orb truthy Str.truthy is_undefined is_false null].

(* ------------------------------------------------------------------ *)
(** * Properties of the matcher *)

Lemma code_inj (a c : ascii) : (Str.code a =? Str.code c)%N = Ascii.eqb a c.
Proof.
  unfold Str.code.
  destruct (Ascii.eqb_spec a c) as [->|Hne].
  - apply N.eqb_refl.
  - apply N.eqb_neq. intros H. apply Hne.
    rewrite <- (ascii_N_embedding a), <- (ascii_N_embedding c). now rewrite H.
Qed.

Lemma m_Chr_exact (a : ascii) pos rest k :
  m false (Chr a) pos rest k =
  match rest with
  | String c rest' => if Ascii.eqb a c then k (S pos) rest' else None
  | EmptyString => None
  end.
Proof.
  destruct rest as [|c rest']; simpl; [reflexivity|].
  unfold canonicalize. simpl. now rewrite code_inj.
Qed.

Lemma search_Bol_later i r s : forall pos, pos <> 0 ->
  RegExp.search i (Seq Bol r) pos s = None.
Proof.
  induction s as [|c s IH]; intros [|pos] Hpos; try congruence; simpl.
  - reflexivity.
  - apply IH. discriminate.
Qed.

Lemma exec_Bol i r s :
  exec i (Seq Bol r) s =
  match m i r 0 s (fun p _ => Some p) with
  | Some e => Some (0, e)
  | None => None
  end.
Proof.
  unfold exec. destruct s as [|c s]; simpl.
  - now destruct (m i r 0 "" _).
  - destruct (m i r 0 (String c s) _); [reflexivity|].
    now apply search_Bol_later.
Qed.

Lemma m_Rep_S i r lo hi pos rest k :
  m i (Rep r lo (S hi)) pos rest k =
  match m i r pos rest (fun p s => m i (Rep r (pred lo) hi) p s k) with
  | Some e => Some e
  | None => if (lo =? 0)%nat then k pos rest else None
  end.
Proof. reflexivity. Qed.

Lemma m_Rep_O i r lo pos rest k :
  m i (Rep r lo 0) pos rest k = if (lo =? 0)%nat then k pos rest else None.
Proof. reflexivity. Qed.

Lemma m_Cls i ranges pos rest k :
  m i (Cls ranges) pos rest k =
  match rest with
  | String c rest' => if class_matches i ranges c then k (S pos) rest' else None
  | EmptyString => None
  end.
Proof. now destruct rest. Qed.

(** A bounded repetition of a class up to the end of the input matches
    exactly the strings of that many class characters. *)
Lemma m_Rep_class_Eol i ranges : forall hi lo pos rest,
  m i (Rep (Cls ranges) lo hi) pos rest
    (fun p s => m i Eol p s (fun p _ => Some p)) =
  if (lo <=? String.length rest)%nat && (String.length rest <=? hi)%nat
     && Str.forallb (class_matches i ranges) rest
  then Some (pos + String.length rest)
  else None.
Proof.
  induction hi as [|hi IH]; intros lo pos rest.
  - rewrite m_Rep_O. destruct rest as [|c rest]; destruct lo as [|lo]; simpl;
      try reflexivity.
    + now rewrite Nat.add_0_r.
    + now rewrite andb_false_r.
  - rewrite m_Rep_S. destruct rest as [|c rest].
    + destruct lo as [|lo]; simpl; [now rewrite Nat.add_0_r|reflexivity].
    + rewrite m_Cls. destruct (class_matches i ranges c) eqn:Hc.
      * rewrite IH. cbn [String.length Str.forallb]. rewrite Hc.
        replace (lo <=? S (String.length rest))%nat
          with (pred lo <=? String.length rest)%nat
          by (destruct lo; simpl; reflexivity).
        change (S (String.length rest) <=? S hi)%nat
          with (String.length rest <=? hi)%nat.
        rewrite andb_true_l.
        destruct (_ && _ && _).
        -- f_equal. lia.
        -- now destruct lo.
      * cbn [Str.forallb]. rewrite Hc, andb_false_l, andb_false_r.
        now destruct lo.
Qed.

Lemma slug_class (c : ascii) :
  class_matches true [("a", "z"); ("0", "9"); ("-", "-")]%char c
  = Spec.is_slug_char c.
Proof.
  destruct c as [[] [] [] [] [] [] [] []]; vm_compute; reflexivity.
Qed.

Lemma forallb_ext (p q : ascii -> bool) s :
  (forall c, p c = q c) -> Str.forallb p s = Str.forallb q s.
Proof.
  intros H. induction s as [|c s IH]; simpl; [reflexivity|].
  now rewrite H, IH.
Qed.

(** [slugPattern.test(path)] decides the shape of section 4.1. *)
Lemma slugPattern_test (path : string) :
  test true slugPattern path = Spec.slug_shape path.
Proof.
  unfold test, slugPattern. rewrite exec_Bol.
  change (m true (Seq ?r Eol) 0 path ?k)
    with (m true r 0 path (fun p s => m true Eol p s k)).
  rewrite m_Rep_class_Eol. unfold Spec.slug_shape.
  rewrite (forallb_ext _ _ path slug_class).
  now destruct (_ && _ && _).
Qed.

(* ------------------------------------------------------------------ *)
(** * The slug extractor and the domain normaliser *)

Lemma replace_leadingSlash (s : string) :
  replace false leadingSlash "" s = Spec.strip_slash s.
Proof.
  unfold replace, leadingSlash. rewrite exec_Bol, m_Chr_exact.
  destruct s as [|c s]; [reflexivity|].
  destruct c as [[] [] [] [] [] [] [] []]; reflexivity.
Qed.

Lemma first_split (sep : ascii) (s : string) :
  Str.first (Str.split sep s) = Spec.upto (fun c => Ascii.eqb c sep) s.
Proof.
  induction s as [|c s IH]; simpl; [reflexivity|].
  destruct (Ascii.eqb c sep); [reflexivity|].
  destruct (Str.split sep s) as [|piece pieces]; simpl in *; now rewrite <- IH.
Qed.

(** Cutting at the first [?] and then at the first [#] is cutting at the
    first of the two. *)
Lemma upto_query_fragment (s : string) :
  Spec.upto (fun c => Ascii.eqb c "#") (Spec.upto (fun c => Ascii.eqb c "?") s)
  = Spec.upto Spec.query_or_fragment s.
Proof.
  unfold Spec.query_or_fragment.
  induction s as [|c s IH]; simpl; [reflexivity|].
  destruct (Ascii.eqb c "?"); simpl; [reflexivity|].
  destruct (Ascii.eqb c "#"); [reflexivity|]. now rewrite IH.
Qed.

Lemma truthy_eqb (s : string) : Str.truthy s = negb (s =? "").
Proof. now destruct s. Qed.

Lemma lower_unit_slug (c : ascii) :
  Spec.is_slug_char c = true -> Str.lower_unit c = Spec.ascii_lower c.
Proof.
  destruct c as [[] [] [] [] [] [] [] []]; vm_compute; congruence.
Qed.

Lemma toLowerCase_slug (s : string) :
  Str.forallb Spec.is_slug_char s = true -> Str.toLowerCase s = Spec.lower s.
Proof.
  induction s as [|c s IH]; simpl; [reflexivity|].
  intros [Hc Hs]%andb_prop. now rewrite lower_unit_slug, IH.
Qed.

Lemma extractSlug_refines (pathname : string) :
  extractSlug pathname = Spec.slug_of_path pathname.
Proof.
  unfold extractSlug, Spec.slug_of_path, Str.startsWith.
  rewrite replace_leadingSlash, !first_split, upto_query_fragment.
  set (rest := Spec.upto _ _).
  rewrite slugPattern_test, truthy_eqb, negb_involutive, orb_diag.
  destruct ((rest =? "") || (rest =? "index.html") || String.prefix "api/" rest);
    [reflexivity|].
  rewrite orb_false_l.
  destruct (Spec.slug_shape rest) eqn:Hshape; [|reflexivity]. simpl.
  f_equal. apply toLowerCase_slug.
  unfold Spec.slug_shape in Hshape. now apply andb_prop in Hshape.
Qed.

(** A slug is never the empty string. *)
Lemma extractSlug_nonempty (pathname slug : string) :
  extractSlug pathname = Some slug -> slug <> "".
Proof.
  rewrite extractSlug_refines. unfold Spec.slug_of_path.
  set (rest := Spec.upto _ _).
  destruct rest as [|c rest]; [discriminate|].
  destruct (_ || _); [discriminate|].
  intros [= <-]. discriminate.
Qed.

(** C7. For every pathname, extractSlug strips one leading slash, cuts at
    the first [?] or [#], gives no slug when the rest is empty, is
    [index.html], starts with [api/] or is not 3 to 30 characters of
    [a-z0-9-] in either case, and otherwise gives the rest in lower case;
    the seven examples of the specification come out as listed. *)
Theorem extractSlug_contract :
  (forall pathname, extractSlug pathname = Spec.slug_of_path pathname)
  /\ extractSlug "/abc123" = Some "abc123"
  /\ extractSlug "/AB-12?x=1" = Some "ab-12"
  /\ extractSlug "/" = None
  /\ extractSlug "/index.html" = None
  /\ extractSlug "/api/foo" = None
  /\ extractSlug "/ab" = None
  /\ extractSlug ("/" ++ "aaaaaaaaaaaaaaaaaaaaaaaaaaaaaaa") = None.
Proof.
  split; [exact extractSlug_refines|].
  repeat split; vm_compute; reflexivity.
Qed.

Lemma prefix_cons (a b : ascii) (s1 s2 : string) :
  String.prefix (String a s1) (String b s2) = Ascii.eqb a b && String.prefix s1 s2.
Proof.
  simpl. destruct (ascii_dec a b) as [->|Hne].
  - now rewrite Ascii.eqb_refl.
  - apply Ascii.eqb_neq in Hne. now rewrite Hne.
Qed.

Lemma m_Seq i r1 r2 pos rest k :
  m i (Seq r1 r2) pos rest k = m i r1 pos rest (fun p s => m i r2 p s k).
Proof. reflexivity. Qed.

(** The pattern [/^www\./] matches the four characters and nothing else. *)
Lemma domain_refines (hostname : string) :
  domain hostname =
  if String.prefix "www." hostname then Str.drop 4 hostname else hostname.
Proof.
  unfold domain, replace, wwwPrefix. rewrite exec_Bol.
  rewrite m_Seq, m_Chr_exact.
  destruct hostname as [|c1 h]; [reflexivity|].
  rewrite prefix_cons. destruct (Ascii.eqb "w" c1); [|reflexivity].
  rewrite m_Seq, m_Chr_exact.
  destruct h as [|c2 h]; [reflexivity|].
  rewrite prefix_cons. destruct (Ascii.eqb "w" c2); [|reflexivity].
  rewrite m_Seq, m_Chr_exact.
  destruct h as [|c3 h]; [reflexivity|].
  rewrite prefix_cons. destruct (Ascii.eqb "w" c3); [|reflexivity].
  rewrite m_Chr_exact.
  destruct h as [|c4 h]; [reflexivity|].
  rewrite prefix_cons. destruct (Ascii.eqb "." c4); [|reflexivity].
  now destruct h.
Qed.

(** C10. Domain normalisation removes one leading [www.] (lower case
    only), and returns every other hostname as it is: a second [www.], a
    port and the letters' case are kept. *)
Theorem domain_normalisation :
  (forall rest, domain ("www." ++ rest) = rest)
  /\ (forall hostname,
        String.prefix "www." hostname = false -> domain hostname = hostname)
  /\ domain "www.goodlink.ai" = "goodlink.ai"
  /\ domain "glynk.io" = "glynk.io"
  /\ domain "www.www.goodlink.ai" = "www.goodlink.ai"
  /\ domain "WWW.goodlink.ai" = "WWW.goodlink.ai"
  /\ domain "Www.GoodLink.ai:8080" = "Www.GoodLink.ai:8080".
Proof.
  split; [|split].
  - intros rest. rewrite domain_refines.
    change ("www." ++ rest) with (String "w" (String "w" (String "w" (String "." rest)))).
    rewrite !prefix_cons. now destruct rest.
  - intros hostname H. now rewrite domain_refines, H.
  - repeat split; vm_compute; reflexivity.
Qed.

Lemma domain_normalisation_witness :
  String.prefix "www." "glynk.io" = false /\ domain "glynk.io" = "glynk.io".
Proof.
  split; [reflexivity|].
  apply (proj1 (proj2 domain_normalisation)). reflexivity.
Defined.

(* ------------------------------------------------------------------ *)
(** * URLSearchParams *)

Lemma get_remove_other (k name : string) (l : list (string * string)) :
  k <> name -> Params.get k (Params.remove name l) = Params.get k l.
Proof.
  intros Hne. induction l as [|[k' v'] l IH]; simpl; [reflexivity|].
  destruct (String.eqb_spec k' name) as [->|Hk'].
  - rewrite IH. destruct (String.eqb_spec name k); congruence.
  - simpl. now rewrite IH.
Qed.

Lemma get_set_same (name val : string) (l : list (string * string)) :
  Params.get name (Params.set name val l) = Some val.
Proof.
  induction l as [|[k' v'] l IH]; simpl.
  - now rewrite String.eqb_refl.
  - destruct (String.eqb_spec k' name) as [->|Hk']; simpl.
    + now rewrite String.eqb_refl.
    + destruct (String.eqb_spec k' name); congruence.
Qed.

Lemma get_set_other (k name val : string) (l : list (string * string)) :
  k <> name -> Params.get k (Params.set name val l) = Params.get k l.
Proof.
  intros Hne. induction l as [|[k' v'] l IH]; simpl.
  - destruct (String.eqb_spec name k); congruence.
  - destruct (String.eqb_spec k' name) as [->|Hk']; simpl.
    + destruct (String.eqb_spec name k); [congruence|].
      now apply get_remove_other.
    + now rewrite IH.
Qed.

Lemma get_set (k name val : string) (l : list (string * string)) :
  Params.get k (Params.set name val l) =
  if k =? name then Some val else Params.get k l.
Proof.
  destruct (String.eqb_spec k name) as [->|Hne].
  - apply get_set_same.
  - now apply get_set_other.
Qed.

Lemma get_app (k : string) (l1 l2 : list (string * string)) :
  Params.get k (l1 ++ l2) = Spec.or_else (Params.get k l1) (Params.get k l2).
Proof.
  induction l1 as [|[k' v'] l1 IH]; simpl; [reflexivity|].
  now destruct (k' =? k).
Qed.

Lemma searchParams_after_set P (name val : string) (u : URL) :
  searchParams (searchParams_set P name val u)
  = Params.set name val (searchParams u).
Proof. reflexivity. Qed.

(* ------------------------------------------------------------------ *)
(** * The URL composer *)

Lemma includes_utm (k : string) :
  includes utm_keys k =
  (k =? "utm_source") || ((k =? "utm_medium")
  || ((k =? "utm_campaign") || ((k =? "utm_content") || false))).
Proof. reflexivity. Qed.

Lemma fold_left_pointwise {A B} (f g : A -> B -> A) (l : list B) :
  (forall a b, f a b = g a b) ->
  forall a, fold_left f l a = fold_left g l a.
Proof.
  intros H. induction l as [|b l IH]; intros a; simpl; [reflexivity|].
  now rewrite H, IH.
Qed.

(** On a row, lines 52-76 compute [Spec.compose] and call nothing. *)
Lemma composeParams_row P (target : URL) (row : Link.t) (requestUrl : URL) tr :
  composeParams P target (JObj row) requestUrl tr
  = (Ok (Spec.compose P target row
           (URLSearchParams_parse P (search requestUrl))), tr).
Proof.
  unfold composeParams, Spec.compose, Spec.apply_utm, Spec.pass_through,
    bind, get, ret.
  simpl.
  destruct (truthy (Link.parameter_pass_through row)); [|reflexivity].
  f_equal. f_equal. apply fold_left_pointwise. intros t kv.
  rewrite <- includes_utm. now destruct (includes utm_keys (fst kv)).
Qed.

(** Whatever [linkData] is, lines 52-76 issue no request. *)
Lemma composeParams_trace P (target : URL) (linkData : json) (requestUrl : URL) tr :
  exists o, composeParams P target linkData requestUrl tr = (o, tr).
Proof.
  destruct linkData as [[| |b|s]|row|items];
    try rewrite composeParams_row; eexists; reflexivity.
Qed.

Lemma get_apply_utm P (row : Link.t) (target : URL) (k : string) :
  Params.get k (searchParams (Spec.apply_utm P row target))
  = Spec.or_else (Spec.configured row k) (Params.get k (searchParams target)).
Proof.
  unfold Spec.apply_utm, Spec.configured, Spec.utm_fields.
  cbn [fold_left fst snd List.find].
  rewrite !(String.eqb_sym _ k).
  destruct (truthy (Link.utm_source row)) eqn:Hsource,
           (truthy (Link.utm_medium row)) eqn:Hmedium,
           (truthy (Link.utm_campaign row)) eqn:Hcampaign,
           (truthy (Link.utm_content row)) eqn:Hcontent;
  rewrite ?searchParams_after_set, ?get_set;
  repeat match goal with
  | |- context [k =? ?c] => destruct (String.eqb_spec k c) as [->|?]
  end; cbn;
  rewrite ?Hsource, ?Hmedium, ?Hcampaign, ?Hcontent;
  try reflexivity; try congruence.
Qed.

Lemma get_pass_through P (k : string) :
  forall (inbound : list (string * string)) (target : URL),
  Params.get k (searchParams (Spec.pass_through P inbound target))
  = if includes utm_keys k then Params.get k (searchParams target)
    else Spec.or_else (Spec.last_inbound inbound k)
                      (Params.get k (searchParams target)).
Proof.
  unfold Spec.pass_through, Spec.last_inbound.
  induction inbound as [|[k' v'] inbound IH]; intros target.
  - cbn [fold_left rev Params.get Spec.or_else].
    now destruct (includes utm_keys k).
  - cbn [fold_left fst snd rev]. rewrite IH, get_app.
    destruct (includes utm_keys k) eqn:Hk.
    + destruct (includes utm_keys k') eqn:Hk'; [reflexivity|].
      rewrite searchParams_after_set, get_set.
      destruct (String.eqb_spec k k') as [->|]; congruence.
    + destruct (Params.get k (rev inbound)); [reflexivity|].
      cbn [Params.get Spec.or_else].
      rewrite (String.eqb_sym k' k).
      destruct (includes utm_keys k') eqn:Hk'.
      * destruct (String.eqb_spec k k') as [->|]; [congruence|reflexivity].
      * rewrite searchParams_after_set, get_set.
        now destruct (k =? k').
Qed.

Lemma get_compose P (target : URL) (row : Link.t)
    (inbound : list (string * string)) (k : string) :
  Params.get k (searchParams (Spec.compose P target row inbound))
  = Spec.expected_param (searchParams target) row inbound k.
Proof.
  unfold Spec.compose, Spec.expected_param.
  destruct (truthy (Link.parameter_pass_through row)).
  - rewrite get_pass_through, get_apply_utm.
    destruct (includes utm_keys k) eqn:Hk; [reflexivity|].
    replace (Spec.configured row k) with (@None string); [reflexivity|].
    unfold Spec.configured, Spec.utm_fields. cbn [List.find fst].
    rewrite includes_utm in Hk. rewrite !(String.eqb_sym _ k).
    repeat match goal with
    | |- context [k =? ?c] => destruct (k =? c)
    end; try discriminate; reflexivity.
  - rewrite get_apply_utm.
    destruct (includes utm_keys k) eqn:Hk; [reflexivity|].
    replace (Spec.configured row k) with (@None string); [reflexivity|].
    unfold Spec.configured, Spec.utm_fields. cbn [List.find fst].
    rewrite includes_utm in Hk. rewrite !(String.eqb_sym _ k).
    repeat match goal with
    | |- context [k =? ?c] => destruct (k =? c)
    end; try discriminate; reflexivity.
Qed.

(* ------------------------------------------------------------------ *)
(** * The link resolver *)

Lemma request_refines (slug dom : string) (supabaseUrl supabaseKey : value) :
  mkRequest
    (to_string supabaseUrl ++ "/rest/v1/links?slug=eq."
     ++ encodeURIComponent slug ++ "&domain=eq."
     ++ encodeURIComponent dom ++ "&select=" ++ select_columns)
    "GET"
    [("apikey", to_string supabaseKey);
     ("Authorization", "Bearer " ++ to_string supabaseKey);
     ("Content-Type", "application/json");
     ("Prefer", "return=representation")]
  = Spec.lookup_request (to_string supabaseUrl) (to_string supabaseKey) slug dom.
Proof. reflexivity. Qed.

Lemma forallb_app (p : ascii -> bool) (s t : string) :
  Str.forallb p (s ++ t) = Str.forallb p s && Str.forallb p t.
Proof.
  induction s as [|c s IH]; simpl; [reflexivity|].
  now rewrite IH, andb_assoc.
Qed.

Lemma encode_unit_escaped (c : ascii) :
  Str.forallb Spec.escaped_char (encode_unit c) = true.
Proof.
  destruct c as [[] [] [] [] [] [] [] []]; vm_compute; reflexivity.
Qed.

Lemma encodeURIComponent_escaped (s : string) :
  Str.forallb Spec.escaped_char (encodeURIComponent s) = true.
Proof.
  induction s as [|c s IH]; simpl; [reflexivity|].
  now rewrite forallb_app, encode_unit_escaped, IH.
Qed.

Lemma unescape_encode_unit (c : ascii) (rest : string) :
  Spec.unescape (encode_unit c ++ rest)
  = option_map (app (Spec.utf8_unit c)) (Spec.unescape rest).
Proof.
  destruct c as [[] [] [] [] [] [] [] []];
    (cbn; now destruct (Spec.unescape rest)).
Qed.

Lemma utf8_decode_unit (c : ascii) (bytes : list N) :
  Spec.utf8_decode (Spec.utf8_unit c ++ bytes)
  = option_map (String c) (Spec.utf8_decode bytes).
Proof.
  destruct c as [[] [] [] [] [] [] [] []]; reflexivity.
Qed.

(** Percent-decoding gives back what [encodeURIComponent] was given. *)
Lemma percent_decode_encode (s : string) :
  Spec.percent_decode (encodeURIComponent s) = Some s.
Proof.
  unfold Spec.percent_decode.
  assert (H : exists bytes, Spec.unescape (encodeURIComponent s) = Some bytes
                            /\ Spec.utf8_decode bytes = Some s).
  { induction s as [|c s [bytes [Hu Hd]]].
    - exists []. split; reflexivity.
    - exists (Spec.utf8_unit c ++ bytes)%list. split.
      + cbn [encodeURIComponent]. now rewrite unescape_encode_unit, Hu.
      + now rewrite utf8_decode_unit, Hd. }
  destruct H as [bytes [-> Hd]]. exact Hd.
Qed.

(** The resolver never throws, and issues the one request of section 6. *)
Lemma getLink_one_request ds (slug dom : string) (supabaseUrl supabaseKey : value) tr :
  exists link,
    getLinkFromSupabase ds slug dom supabaseUrl supabaseKey tr
    = (Ok link,
       (tr ++ [Spec.lookup_request (to_string supabaseUrl)
                 (to_string supabaseKey) slug dom])%list).
Proof.
  run_resolver. rewrite request_refines.
  destruct (ds _) as [|r]; [eexists; reflexivity|].
  destruct (ok r); step_resolver.
  2: { destruct (reply_text r); eexists; reflexivity. }
  destruct (reply_json r) as [data|]; [|eexists; reflexivity].
  destruct data as [[| |[]|[|c s]]|row|[|x more]]; step_resolver;
    try (eexists; reflexivity).
  destruct x as [[| |[]|s]|row|items]; step_resolver;
    try (eexists; reflexivity).
  destruct (Link.status row) as [| |[]|s]; eexists; reflexivity.
Qed.

(** A faulty outcome of the call is "not found". *)
Lemma getLink_faulty ds (slug dom : string) (supabaseUrl supabaseKey : value) tr :
  let req := Spec.lookup_request (to_string supabaseUrl)
               (to_string supabaseKey) slug dom in
  Spec.faulty (ds req) = true ->
  getLinkFromSupabase ds slug dom supabaseUrl supabaseKey tr
  = (Ok null, (tr ++ [req])%list).
Proof.
  intros req. run_resolver. rewrite request_refines. fold req.
  unfold Spec.faulty.
  destruct (ds req) as [|r]; [reflexivity|].
  destruct (ok r); step_resolver.
  2: { intros _. now destruct (reply_text r). }
  destruct (reply_json r) as [data|]; [|reflexivity].
  destruct data as [v|row|[|x more]]; try discriminate. reflexivity.
Qed.

(** A successful answer whose first row is an object resolves to that row,
    unless its status is the literal [false]. *)
Lemma getLink_row ds (slug dom : string) (supabaseUrl supabaseKey : value) tr
    (r : reply) (row : Link.t) (more : list json) :
  let req := Spec.lookup_request (to_string supabaseUrl)
               (to_string supabaseKey) slug dom in
  ds req = Resolved r ->
  ok r = true ->
  reply_json r = Some (JArr (JObj row :: more)) ->
  getLinkFromSupabase ds slug dom supabaseUrl supabaseKey tr
  = (Ok (if is_false (Link.status row) then null else JObj row),
     (tr ++ [req])%list).
Proof.
  intros req Hds Hok Hjson. run_resolver. rewrite request_refines. fold req.
  rewrite Hds, Hok. step_resolver. rewrite Hjson. step_resolver.
  now destruct (Link.status row) as [| |[]|s].
Qed.

(* ------------------------------------------------------------------ *)
(** * The handler *)

Lemma not_found_eq : not_found = link_not_found.
Proof. reflexivity. Qed.

(** Without configuration the handler answers at once. *)
Lemma fetch_unconfigured P ds (request : Request) (env : Env) tr :
  truthy (SUPABASE_URL env) = false
  \/ truthy (SUPABASE_SERVICE_ROLE_KEY env) = false ->
  fetch P ds request env tr = (Ok config_error, tr).
Proof.
  intros H. unfold fetch, try_catch.
  assert (Hc : negb (truthy (SUPABASE_URL env))
               || negb (truthy (SUPABASE_SERVICE_ROLE_KEY env)) = true).
  { destruct H as [-> | ->]; [reflexivity|apply orb_true_r]. }
  rewrite Hc. reflexivity.
Qed.

(** Every request gets a response: the handler never throws. *)
Lemma fetch_total P ds (request : Request) (env : Env) tr :
  exists response tr', fetch P ds request env tr = (Ok response, tr').
Proof.
  unfold fetch, try_catch.
  match goal with
  | |- context [match ?body tr with _ => _ end] =>
      destruct (body tr) as [[response|e] tr']
  end; eexists; eexists; reflexivity.
Qed.

(** A request without a slug is not found, and nothing is sent. *)
Lemma fetch_no_slug P ds (request : Request) (env : Env) (u : URL) tr :
  truthy (SUPABASE_URL env) = true ->
  truthy (SUPABASE_SERVICE_ROLE_KEY env) = true ->
  URL_parse P (url request) = Some u ->
  extractSlug (pathname u) = None ->
  fetch P ds request env tr = (Ok link_not_found, tr).
Proof.
  intros Hurl Hkey Hparse Hslug. unfold fetch, try_catch, bind, new_URL.
  rewrite Hurl, Hkey, Hparse. cbn [negb orb]. cbv beta iota.
  unfold ret at 1. cbv beta iota. rewrite Hslug. reflexivity.
Qed.

Lemma fetch_resolved P ds (request : Request) (env : Env) (u : URL)
    (slug : string) (linkData : json) tr0 tr :
  truthy (SUPABASE_URL env) = true ->
  truthy (SUPABASE_SERVICE_ROLE_KEY env) = true ->
  URL_parse P (url request) = Some u ->
  extractSlug (pathname u) = Some slug ->
  getLinkFromSupabase ds slug (domain (hostname u)) (SUPABASE_URL env)
    (SUPABASE_SERVICE_ROLE_KEY env) tr0 = (Ok linkData, tr) ->
  fetch P ds request env tr0 = respond P u linkData tr.
Proof.
  intros Hurl Hkey Hparse Hslug Hlink.
  pose proof (extractSlug_nonempty _ _ Hslug) as Hne.
  unfold fetch, try_catch, bind, new_URL.
  rewrite Hurl, Hkey, Hparse. cbn [negb orb]. cbv beta iota.
  unfold ret at 1. cbv beta iota. rewrite Hslug.
  destruct slug as [|c slug]; [congruence|].
  unfold console_log at 1. unfold ret at 1. cbv beta iota.
  rewrite Hlink. cbv beta iota. unfold respond.
  destruct linkData as [[| |[]|[|c' s']]|row|items];
    try reflexivity.
  cbn [truthy_json negb]. unfold get. unfold ret at 1. cbv beta iota.
  unfold ret at 1. cbv beta iota.
  destruct (truthy (Link.target_url row)); [|reflexivity].
  cbn [negb]. cbv beta iota. unfold ret at 1. cbv beta iota.
  destruct (buildTargetUrl P _ _ u tr) as [[finalUrl|e] tr']; [|reflexivity].
  unfold console_log, ret at 1. cbv beta iota.
  now destruct (Response_redirect P finalUrl 301 tr') as [[response|e] tr''].
Qed.

Lemma buildTargetUrl_unparseable P (targetUrl : value) (linkData : json)
    (requestUrl : URL) tr :
  URL_parse P (to_string targetUrl) = None ->
  buildTargetUrl P targetUrl linkData requestUrl tr = (Ok targetUrl, tr).
Proof.
  intros Hparse. unfold buildTargetUrl, try_catch, bind, new_URL.
  now rewrite Hparse.
Qed.

Lemma buildTargetUrl_row P (targetUrl : value) (row : Link.t)
    (requestUrl target : URL) tr :
  URL_parse P (to_string targetUrl) = Some target ->
  buildTargetUrl P targetUrl (JObj row) requestUrl tr
  = (Ok (VString (URL_href P
           (Spec.compose P target row
              (URLSearchParams_parse P (search requestUrl))))), tr).
Proof.
  intros Hparse. unfold buildTargetUrl, try_catch, bind, new_URL.
  rewrite Hparse. unfold ret at 1. cbv beta iota.
  now rewrite composeParams_row.
Qed.

Lemma respond_falsy P (u : URL) (row : Link.t) tr :
  truthy (Link.target_url row) = false ->
  respond P u (JObj row) tr = (Ok link_not_found, tr).
Proof. intros H. unfold respond. now rewrite H. Qed.

Lemma respond_unparseable P (u : URL) (row : Link.t) tr :
  truthy (Link.target_url row) = true ->
  URL_parse P (to_string (Link.target_url row)) = None ->
  respond P u (JObj row) tr = (Ok internal_error, tr).
Proof.
  intros Htruthy Hparse. unfold respond.
  rewrite Htruthy, buildTargetUrl_unparseable by assumption.
  unfold Response_redirect. now rewrite Hparse.
Qed.

Lemma respond_redirect P (u : URL) (row : Link.t) (target final : URL) tr :
  truthy (Link.target_url row) = true ->
  URL_parse P (to_string (Link.target_url row)) = Some target ->
  URL_parse P (URL_href P (Spec.compose P target row
                 (URLSearchParams_parse P (search u)))) = Some final ->
  respond P u (JObj row) tr = (Ok (redirect_to (URL_href P final)), tr).
Proof.
  intros Htruthy Hparse Hfinal. unfold respond.
  rewrite Htruthy, (buildTargetUrl_row P _ row u target tr Hparse).
  unfold Response_redirect. cbn [to_string]. now rewrite Hfinal.
Qed.

(* ------------------------------------------------------------------ *)
(** * The claims on the pipeline *)

(** C9. When the datastore base URL or the credential is absent (or
    otherwise falsy), every request gets the 500 configuration error, and
    nothing else happens: the answer is the same whatever the request (its
    URL is not even parsed) and no request goes out. *)
Theorem configuration_checked_first P ds (request : Request) (env : Env) :
  truthy (SUPABASE_URL env) = false
  \/ truthy (SUPABASE_SERVICE_ROLE_KEY env) = false ->
  run (fetch P ds request env) = (Ok config_error, [])
  /\ Response.status config_error = 500%Z.
Proof.
  intros H. split; [|reflexivity]. now apply fetch_unconfigured.
Qed.

Lemma configuration_checked_first_witness :
  run (fetch Reference.platform Examples.unreachable
         (mkInbound "GET" "not a url")
         (mkEnv VUndefined (VString "service-key")))
  = (Ok config_error, []).
Proof.
  apply (configuration_checked_first Reference.platform Examples.unreachable
           (mkInbound "GET" "not a url")
           (mkEnv VUndefined (VString "service-key"))).
  left. reflexivity.
Defined.

(** C4. When the datastore's outcome is a transport fault, a status
    outside 2xx, a body that does not parse, or an empty array, the
    resolver returns null without throwing, and the response of a
    configured worker is the 404, not a 500. *)
Theorem datastore_faults_are_not_found P ds (request : Request) (env : Env)
    (u : URL) :
  truthy (SUPABASE_URL env) = true ->
  truthy (SUPABASE_SERVICE_ROLE_KEY env) = true ->
  URL_parse P (url request) = Some u ->
  (forall req, Spec.faulty (ds req) = true) ->
  (forall slug dom tr,
     getLinkFromSupabase ds slug dom (SUPABASE_URL env)
       (SUPABASE_SERVICE_ROLE_KEY env) tr
     = (Ok null,
        (tr ++ [Spec.lookup_request (to_string (SUPABASE_URL env))
                  (to_string (SUPABASE_SERVICE_ROLE_KEY env)) slug dom])%list))
  /\ fst (run (fetch P ds request env)) = Ok link_not_found
  /\ Response.status link_not_found = 404%Z.
Proof.
  intros Hurl Hkey Hparse Hfaulty. split; [|split; [|reflexivity]].
  - intros slug dom tr. apply getLink_faulty, Hfaulty.
  - unfold run. destruct (extractSlug (pathname u)) as [slug|] eqn:Hslug.
    + erewrite fetch_resolved; eauto.
      2: { apply getLink_faulty, Hfaulty. }
      reflexivity.
    + erewrite fetch_no_slug; eauto.
Qed.

Lemma datastore_faults_are_not_found_witness :
  fst (run (fetch Reference.platform Examples.unreachable Examples.request
              Examples.env)) = Ok link_not_found
  /\ fst (run (fetch Reference.platform (Examples.failing 503) Examples.request
                 Examples.env)) = Ok link_not_found
  /\ fst (run (fetch Reference.platform (Examples.store []) Examples.request
                 Examples.env)) = Ok link_not_found.
Proof.
  split; [|split].
  - apply (datastore_faults_are_not_found Reference.platform
             Examples.unreachable Examples.request Examples.env
             Examples.inbound); try reflexivity.
  - apply (datastore_faults_are_not_found Reference.platform
             (Examples.failing 503) Examples.request Examples.env
             Examples.inbound); try reflexivity.
  - apply (datastore_faults_are_not_found Reference.platform
             (Examples.store []) Examples.request Examples.env
             Examples.inbound); try reflexivity.
Defined.

(** C6. The first row of a successful answer: when its status is the
    literal [false] the response is the 404, whatever its target_url; when
    the status field is absent the row is active and, its target_url
    parsing as a URL, the response is the 301 redirect to the composed URL. *)
Theorem status_field_semantics P ds (request : Request) (env : Env) (u : URL)
    (slug : string) (r : reply) (row : Link.t) (more : list json) :
  truthy (SUPABASE_URL env) = true ->
  truthy (SUPABASE_SERVICE_ROLE_KEY env) = true ->
  URL_parse P (url request) = Some u ->
  extractSlug (pathname u) = Some slug ->
  ds (Spec.lookup_request (to_string (SUPABASE_URL env))
        (to_string (SUPABASE_SERVICE_ROLE_KEY env)) slug
        (domain (hostname u))) = Resolved r ->
  ok r = true ->
  reply_json r = Some (JArr (JObj row :: more)) ->
  (Link.status row = VBool false ->
   run (fetch P ds request env)
   = (Ok link_not_found,
      [Spec.lookup_request (to_string (SUPABASE_URL env))
         (to_string (SUPABASE_SERVICE_ROLE_KEY env)) slug
         (domain (hostname u))]))
  /\ (Link.status row = VUndefined ->
      forall target final : URL,
        truthy (Link.target_url row) = true ->
        URL_parse P (to_string (Link.target_url row)) = Some target ->
        URL_parse P (URL_href P (Spec.compose P target row
                       (URLSearchParams_parse P (search u)))) = Some final ->
        run (fetch P ds request env)
        = (Ok (redirect_to (URL_href P final)),
           [Spec.lookup_request (to_string (SUPABASE_URL env))
              (to_string (SUPABASE_SERVICE_ROLE_KEY env)) slug
              (domain (hostname u))])).
Proof.
  intros Hurl Hkey Hparse Hslug Hds Hok Hjson.
  pose proof (getLink_row ds slug (domain (hostname u)) (SUPABASE_URL env)
                (SUPABASE_SERVICE_ROLE_KEY env) [] r row more Hds Hok Hjson)
    as Hlink.
  cbv zeta in Hlink. split.
  - intros Hstatus. rewrite Hstatus in Hlink. cbn [is_false] in Hlink.
    unfold run. now rewrite (fetch_resolved P ds request env u slug null []
                               _ Hurl Hkey Hparse Hslug Hlink).
  - intros Hstatus target final Htruthy Htarget Hfinal.
    rewrite Hstatus in Hlink. cbn [is_false] in Hlink.
    unfold run. rewrite (fetch_resolved P ds request env u slug (JObj row) []
                           _ Hurl Hkey Hparse Hslug Hlink).
    now apply respond_redirect with (target := target).
Qed.

Lemma status_field_semantics_witness :
  run (fetch Reference.platform
         (Examples.store
            [JObj (Examples.with_status (VBool false)
                     (Examples.row_to (VString "https://x.com")))])
         Examples.request Examples.env)
  = (Ok link_not_found, [Examples.lookup])
  /\ run (fetch Reference.platform
            (Examples.store [JObj (Examples.row_to (VString "https://x.com"))])
            Examples.request Examples.env)
     = (Ok (redirect_to "https://x.com/"), [Examples.lookup]).
Proof.
  split.
  - refine (proj1 (status_field_semantics Reference.platform _ Examples.request
                     Examples.env Examples.inbound "abc123"
                     (mkReply 200 None _) _ [] _ _ _ _ _ _ _) _);
      reflexivity.
  - refine (proj2 (status_field_semantics Reference.platform _ Examples.request
                     Examples.env Examples.inbound "abc123"
                     (mkReply 200 None _) _ [] _ _ _ _ _ _ _) _
                  (mkURL "https:" "x.com" "x.com" "/" "" [] "")
                  (mkURL "https:" "x.com" "x.com" "/" "" [] "") _ _ _);
      reflexivity.
Defined.

(** C1, as the code has it. For a resolved record: when its target_url is
    absent, null or empty the composer is not reached and the response is
    the 404; when its target_url is non-empty and does not parse as a URL,
    the composer signals nothing (it returns the target_url as it is) and
    the response is the catch-all 500, because the redirect rejects the
    string. *)
Theorem target_url_outcomes P ds (request : Request) (env : Env) (u : URL)
    (slug : string) (row : Link.t) (tr : list http_request) :
  truthy (SUPABASE_URL env) = true ->
  truthy (SUPABASE_SERVICE_ROLE_KEY env) = true ->
  URL_parse P (url request) = Some u ->
  extractSlug (pathname u) = Some slug ->
  getLinkFromSupabase ds slug (domain (hostname u)) (SUPABASE_URL env)
    (SUPABASE_SERVICE_ROLE_KEY env) [] = (Ok (JObj row), tr) ->
  (truthy (Link.target_url row) = false ->
   run (fetch P ds request env) = (Ok link_not_found, tr))
  /\ (truthy (Link.target_url row) = true ->
      URL_parse P (to_string (Link.target_url row)) = None ->
      buildTargetUrl P (Link.target_url row) (JObj row) u tr
      = (Ok (Link.target_url row), tr)
      /\ run (fetch P ds request env) = (Ok internal_error, tr)).
Proof.
  intros Hurl Hkey Hparse Hslug Hlink.
  unfold run.
  rewrite (fetch_resolved P ds request env u slug (JObj row) [] tr
             Hurl Hkey Hparse Hslug Hlink).
  split.
  - apply respond_falsy.
  - intros Htruthy Hnone. split.
    + now apply buildTargetUrl_unparseable.
    + now apply respond_unparseable.
Qed.

Lemma target_url_outcomes_witness :
  run (fetch Reference.platform
         (Examples.store [JObj (Examples.row_to VNull)])
         Examples.request Examples.env)
  = (Ok link_not_found, [Examples.lookup])
  /\ run (fetch Reference.platform
            (Examples.store [JObj (Examples.row_to (VString "not a url"))])
            Examples.request Examples.env)
     = (Ok internal_error, [Examples.lookup]).
Proof.
  split.
  - refine (proj1 (target_url_outcomes Reference.platform _ Examples.request
                     Examples.env Examples.inbound "abc123" _
                     [Examples.lookup] _ _ _ _ _) _); reflexivity.
  - refine (proj2 (proj2 (target_url_outcomes Reference.platform _
                     Examples.request Examples.env Examples.inbound "abc123" _
                     [Examples.lookup] _ _ _ _ _) _ _)); reflexivity.
Defined.

(** The claim C1 as the specification words it fails: a resolved record
    without target_url gets the 404, and the composer returns a string
    that does not parse instead of failing. *)
Lemma absent_target_url_is_404 :
  getLinkFromSupabase
    (Examples.store [JObj (Examples.row_to VUndefined)])
    "abc123" "goodlink.ai" (SUPABASE_URL Examples.env)
    (SUPABASE_SERVICE_ROLE_KEY Examples.env) []
  = (Ok (JObj (Examples.row_to VUndefined)), [Examples.lookup])
  /\ run (fetch Reference.platform
            (Examples.store [JObj (Examples.row_to VUndefined)])
            Examples.request Examples.env)
     = (Ok (Response.mk 404 (Some "Link not found")
              [("Content-Type", "text/plain")]), [Examples.lookup])
  /\ URL_parse Reference.platform "not a url" = None
  /\ buildTargetUrl Reference.platform (VString "not a url")
       (JObj (Examples.row_to (VString "not a url"))) Examples.inbound []
     = (Ok (VString "not a url"), []).
Proof. repeat split. Qed.

(** C2, as the code has it. For a request that resolves an active record
    whose target_url is non-empty and does not parse as a URL, the response
    is the 500 with the plain-text body [Internal server error]: not a
    redirect, not the 404. *)
Theorem unparseable_target_is_500 P ds (request : Request) (env : Env)
    (u : URL) (slug : string) (r : reply) (row : Link.t) (more : list json) :
  truthy (SUPABASE_URL env) = true ->
  truthy (SUPABASE_SERVICE_ROLE_KEY env) = true ->
  URL_parse P (url request) = Some u ->
  extractSlug (pathname u) = Some slug ->
  ds (Spec.lookup_request (to_string (SUPABASE_URL env))
        (to_string (SUPABASE_SERVICE_ROLE_KEY env)) slug
        (domain (hostname u))) = Resolved r ->
  ok r = true ->
  reply_json r = Some (JArr (JObj row :: more)) ->
  is_false (Link.status row) = false ->
  truthy (Link.target_url row) = true ->
  URL_parse P (to_string (Link.target_url row)) = None ->
  fst (run (fetch P ds request env))
  = Ok (Response.mk 500 (Some "Internal server error")
          [("Content-Type", "text/plain")]).
Proof.
  intros Hurl Hkey Hparse Hslug Hds Hok Hjson Hactive Htruthy Hnone.
  pose proof (getLink_row ds slug (domain (hostname u)) (SUPABASE_URL env)
                (SUPABASE_SERVICE_ROLE_KEY env) [] r row more Hds Hok Hjson)
    as Hlink.
  cbv zeta in Hlink. rewrite Hactive in Hlink.
  unfold run.
  rewrite (fetch_resolved P ds request env u slug (JObj row) [] _
             Hurl Hkey Hparse Hslug Hlink).
  now rewrite respond_unparseable.
Qed.

Lemma unparseable_target_is_500_witness :
  fst (run (fetch Reference.platform
              (Examples.store
                 [JObj (Examples.with_status (VBool true)
                          (Examples.row_to (VString "dest.example/page")))])
              Examples.request Examples.env))
  = Ok internal_error.
Proof.
  refine (unparseable_target_is_500 Reference.platform _ Examples.request
            Examples.env Examples.inbound "abc123" (mkReply 200 None _) _ []
            _ _ _ _ _ _ _ _ _ _); reflexivity.
Defined.

(** The claim C2 as the specification words it fails on the empty string,
    which is not a valid absolute URL: the response is the 404. *)
Lemma empty_target_url_is_404 :
  URL_parse Reference.platform "" = None
  /\ run (fetch Reference.platform
            (Examples.store
               [JObj (Examples.with_status (VBool true)
                        (Examples.row_to (VString "")))])
            Examples.request Examples.env)
     = (Ok (Response.mk 404 (Some "Link not found")
              [("Content-Type", "text/plain")]), [Examples.lookup]).
Proof. split; reflexivity. Qed.

(* ------------------------------------------------------------------ *)
(** * The claims on the composer and the resolver's request *)

(** C5. On a record (lines 52-76 never fail on one): the parameter the
    composed URL holds under a name is [Spec.expected_param]. With
    parameter_pass_through true, an inbound parameter of another name than
    the four UTM names is set on the target, and under a UTM name the
    configured value stands (else the target's own), never the inbound one;
    with parameter_pass_through false or absent the inbound parameters play
    no part. The two examples of section 8 compose as the specification
    says. *)
Theorem pass_through_contract :
  (forall P (target : URL) (row : Link.t) (requestUrl : URL) tr,
     exists composed : URL,
       composeParams P target (JObj row) requestUrl tr = (Ok composed, tr)
       /\ forall name,
            Params.get name (searchParams composed)
            = Spec.expected_param (searchParams target) row
                (URLSearchParams_parse P (search requestUrl)) name)
  /\ buildTargetUrl Reference.platform (VString "https://dest.example/page")
       (JObj (Examples.row_nl (VBool true))) Examples.inbound_with_query []
     = (Ok (VString "https://dest.example/page?utm_source=nl&ref=x"), [])
  /\ buildTargetUrl Reference.platform (VString "https://dest.example/page")
       (JObj (Examples.row_nl (VBool false))) Examples.inbound_ref []
     = (Ok (VString "https://dest.example/page?utm_source=nl"), [])
  /\ buildTargetUrl Reference.platform (VString "https://dest.example/page")
       (JObj (Examples.row_to (VString "https://dest.example/page")))
       Examples.inbound_ref []
     = (Ok (VString "https://dest.example/page"), []).
Proof.
  split; [|repeat split].
  intros P target row requestUrl tr.
  exists (Spec.compose P target row (URLSearchParams_parse P (search requestUrl))).
  split; [apply composeParams_row|].
  intros name. apply get_compose.
Qed.

(** C3. buildTargetUrl is total: on a string it returns a string and
    never throws, whatever the link data and the request; when the string
    does not parse as a URL, the result is that string. *)
Theorem buildTargetUrl_total P (targetUrl : string) (linkData : json)
    (requestUrl : URL) tr :
  exists final : string,
    buildTargetUrl P (VString targetUrl) linkData requestUrl tr
    = (Ok (VString final), tr)
    /\ (URL_parse P targetUrl = None -> final = targetUrl).
Proof.
  unfold buildTargetUrl, try_catch, bind, new_URL. cbn [to_string].
  destruct (URL_parse P targetUrl) as [target|].
  - unfold ret at 1. cbv beta iota.
    destruct (composeParams_trace P target linkData requestUrl tr) as [o Ho].
    rewrite Ho. destruct o as [composed|e].
    + eexists. split; [reflexivity|discriminate].
    + eexists. split; [reflexivity|discriminate].
  - exists targetUrl. split; reflexivity.
Qed.

Lemma buildTargetUrl_total_witness :
  buildTargetUrl Reference.platform (VString "dest.example/page")
    (JObj (Examples.row_nl (VBool true))) Examples.inbound_with_query []
  = (Ok (VString "dest.example/page"), []).
Proof.
  destruct (buildTargetUrl_total Reference.platform "dest.example/page"
              (JObj (Examples.row_nl (VBool true)))
              Examples.inbound_with_query []) as [final [Hrun Hsame]].
  rewrite Hrun, (Hsame eq_refl). reflexivity.
Defined.

(** Section 8, end to end: the request to [https://goodlink.ai/abc123],
    answered with [{target_url: "https://x.com", status: true}], is
    redirected to [https://x.com/] with status 301 after one lookup. *)
Example end_to_end :
  run (fetch Reference.platform
         (Examples.store
            [JObj (Examples.with_status (VBool true)
                     (Examples.row_to (VString "https://x.com")))])
         Examples.request Examples.env)
  = (Ok (Response.mk 301 None [("Location", "https://x.com/")]),
     [Examples.lookup]).
Proof. reflexivity. Qed.

(** Section 8, the pass-through example through the whole pipeline: the
    inbound [utm_source=hack] is dropped, [ref=x] is forwarded, and the
    lookup is made for the host without its [www.]. *)
Example end_to_end_pass_through :
  run (fetch Reference.platform
         (Examples.store [JObj (Examples.row_nl (VBool true))])
         Examples.request_with_query Examples.env)
  = (Ok (redirect_to "https://dest.example/page?utm_source=nl&ref=x"),
     [Examples.lookup]).
Proof. reflexivity. Qed.

(* ------------------------------------------------------------------ *)
(** * Further properties of the slug extractor *)

Lemma length_lower (s : string) :
  String.length (Spec.lower s) = String.length s.
Proof. induction s as [|c s IH]; simpl; congruence. Qed.

Lemma canonical_of_slug_char (c : ascii) :
  Spec.is_slug_char c = true ->
  Props.is_canonical_char (Spec.ascii_lower c) = true.
Proof.
  destruct c as [[] [] [] [] [] [] [] []]; vm_compute; congruence.
Qed.

Lemma canonical_lower (s : string) :
  Str.forallb Spec.is_slug_char s = true ->
  Str.forallb Props.is_canonical_char (Spec.lower s) = true.
Proof.
  induction s as [|c s IH]; simpl; [reflexivity|].
  intros [Hc Hs]%andb_prop. now rewrite canonical_of_slug_char, IH.
Qed.

(** A string of the slug shape is none of the paths the early exits name. *)
Lemma shape_excludes (rest : string) :
  Spec.slug_shape rest = true ->
  (rest =? "") || (rest =? "index.html") || String.prefix "api/" rest = false.
Proof.
  intros Hshape.
  destruct (String.eqb_spec rest "") as [->|_]; [discriminate|].
  destruct (String.eqb_spec rest "index.html") as [->|_]; [discriminate|].
  cbn [orb].
  destruct rest as [|c1 [|c2 [|c3 [|c4 rest]]]];
    rewrite ?prefix_cons; cbn [String.prefix]; rewrite ?andb_false_r;
    try reflexivity.
  destruct (Ascii.eqb_spec "/" c4) as [<-|_]; [|now rewrite !andb_false_r].
  unfold Spec.slug_shape in Hshape. cbn [Str.forallb] in Hshape.
  change (Spec.is_slug_char "/") with false in Hshape.
  now rewrite !andb_false_r in Hshape.
Qed.

(** The pattern alone decides: extractSlug gives the lower-cased rest of the
    path exactly when that rest has the slug shape. *)
Lemma extractSlug_by_shape (pathname : string) :
  extractSlug pathname =
  let rest := Spec.upto Spec.query_or_fragment (Spec.strip_slash pathname) in
  if Spec.slug_shape rest then Some (Spec.lower rest) else None.
Proof.
  rewrite extractSlug_refines. unfold Spec.slug_of_path. cbv zeta.
  set (rest := Spec.upto _ _).
  destruct (Spec.slug_shape rest) eqn:Hshape.
  - now rewrite (shape_excludes rest Hshape).
  - now rewrite orb_true_r.
Qed.

Lemma extractSlug_inv (pathname slug : string) :
  extractSlug pathname = Some slug ->
  exists rest, Spec.slug_shape rest = true /\ slug = Spec.lower rest.
Proof.
  rewrite extractSlug_by_shape. cbv zeta.
  set (rest := Spec.upto _ _).
  destruct (Spec.slug_shape rest) eqn:Hshape; [|discriminate].
  intros [= <-]. now exists rest.
Qed.

Lemma slug_is_canonical (pathname slug : string) :
  extractSlug pathname = Some slug ->
  (3 <= String.length slug <= 30)%nat
  /\ Str.forallb Props.is_canonical_char slug = true.
Proof.
  intros [rest [Hshape ->]]%extractSlug_inv.
  unfold Spec.slug_shape in Hshape.
  apply andb_prop in Hshape as [[Hlo Hhi]%andb_prop Hchars].
  rewrite length_lower. split.
  - split; [now apply Nat.leb_le|now apply Nat.leb_le].
  - now apply canonical_lower.
Qed.

(** X1. A slug that extractSlug returns is 3 to 30 characters long and
    holds only lower-case letters a-z, digits and hyphens. *)
Theorem extractSlug_output_shape (pathname slug : string) :
  extractSlug pathname = Some slug ->
  (3 <= String.length slug <= 30)%nat
  /\ Str.forallb Props.is_canonical_char slug = true.
Proof. exact (slug_is_canonical pathname slug). Qed.

Lemma extractSlug_output_shape_witness :
  (3 <= String.length "ab-12" <= 30)%nat
  /\ Str.forallb Props.is_canonical_char "ab-12" = true.
Proof.
  apply (extractSlug_output_shape "/AB-12?x=1" "ab-12"). reflexivity.
Defined.

Lemma canonical_is_slug_char (c : ascii) :
  Props.is_canonical_char c = true ->
  Spec.is_slug_char c = true /\ Spec.ascii_lower c = c
  /\ Spec.query_or_fragment c = false /\ URI.unreserved c = true.
Proof.
  destruct c as [[] [] [] [] [] [] [] []]; vm_compute; intuition congruence.
Qed.

Lemma canonical_string (s : string) :
  Str.forallb Props.is_canonical_char s = true ->
  Str.forallb Spec.is_slug_char s = true /\ Spec.lower s = s
  /\ Spec.upto Spec.query_or_fragment s = s /\ encodeURIComponent s = s.
Proof.
  induction s as [|c s IH]; simpl; [repeat split|].
  intros [Hc Hs]%andb_prop.
  destruct (canonical_is_slug_char c Hc) as [H1 [H2 [H3 H4]]].
  destruct (IH Hs) as [I1 [I2 [I3 I4]]].
  unfold encode_unit. rewrite H1, H2, H3, H4, I1, I2, I3, I4.
  repeat split.
Qed.

(** X2. A slug is its own path: extracting from [/] followed by an
    extracted slug gives that slug again. *)
Theorem extractSlug_fixed_point (pathname slug : string) :
  extractSlug pathname = Some slug ->
  extractSlug ("/" ++ slug) = Some slug.
Proof.
  intros H. destruct (slug_is_canonical pathname slug H)
    as [[Hlo Hhi] Hchars].
  destruct (canonical_string slug Hchars) as [Hslug [Hlower [Hupto _]]].
  rewrite extractSlug_by_shape. cbv zeta.
  change (Spec.strip_slash ("/" ++ slug)) with slug.
  rewrite Hupto. unfold Spec.slug_shape.
  apply Nat.leb_le in Hlo, Hhi. now rewrite Hlo, Hhi, Hslug, Hlower.
Qed.

Lemma extractSlug_fixed_point_witness :
  extractSlug ("/" ++ "ab-12") = Some "ab-12".
Proof.
  apply (extractSlug_fixed_point "/AB-12?x=1" "ab-12"). reflexivity.
Defined.

Lemma ascii_lower_facts (c : ascii) :
  Spec.is_slug_char (Spec.ascii_lower c) = Spec.is_slug_char c
  /\ Spec.query_or_fragment (Spec.ascii_lower c) = Spec.query_or_fragment c
  /\ Ascii.eqb (Spec.ascii_lower c) "/" = Ascii.eqb c "/"
  /\ Spec.ascii_lower (Spec.ascii_lower c) = Spec.ascii_lower c.
Proof.
  destruct c as [[] [] [] [] [] [] [] []]; vm_compute; repeat split.
Qed.

Lemma strip_slash_cons (c : ascii) (s : string) :
  Spec.strip_slash (String c s) = if Ascii.eqb c "/" then s else String c s.
Proof.
  destruct c as [[] [] [] [] [] [] [] []]; reflexivity.
Qed.

Lemma strip_slash_lower (s : string) :
  Spec.strip_slash (Spec.lower s) = Spec.lower (Spec.strip_slash s).
Proof.
  destruct s as [|c s]; [reflexivity|].
  cbn [Spec.lower]. rewrite !strip_slash_cons.
  destruct (ascii_lower_facts c) as [_ [_ [-> _]]].
  now destruct (Ascii.eqb c "/").
Qed.

Lemma upto_lower (s : string) :
  Spec.upto Spec.query_or_fragment (Spec.lower s)
  = Spec.lower (Spec.upto Spec.query_or_fragment s).
Proof.
  induction s as [|c s IH]; simpl; [reflexivity|].
  destruct (ascii_lower_facts c) as [_ [-> _]].
  destruct (Spec.query_or_fragment c); simpl; [reflexivity|]. now rewrite IH.
Qed.

Lemma slug_shape_lower (s : string) :
  Spec.slug_shape (Spec.lower s) = Spec.slug_shape s.
Proof.
  unfold Spec.slug_shape. rewrite length_lower. f_equal.
  induction s as [|c s IH]; simpl; [reflexivity|].
  destruct (ascii_lower_facts c) as [-> _]. now rewrite IH.
Qed.

Lemma lower_lower (s : string) : Spec.lower (Spec.lower s) = Spec.lower s.
Proof.
  induction s as [|c s IH]; simpl; [reflexivity|].
  destruct (ascii_lower_facts c) as [_ [_ [_ ->]]]. now rewrite IH.
Qed.

Lemma extractSlug_lower (pathname : string) :
  extractSlug (Spec.lower pathname) = extractSlug pathname.
Proof.
  rewrite !extractSlug_by_shape. cbv zeta.
  now rewrite strip_slash_lower, upto_lower, slug_shape_lower, lower_lower.
Qed.

(** X3. The case of the letters A-Z and a-z of a path does not matter: two
    paths that are equal once their letters A-Z are written in lower case
    give the same slug, or both give none. *)
Theorem extractSlug_ignores_case (pathname1 pathname2 : string) :
  Spec.lower pathname1 = Spec.lower pathname2 ->
  extractSlug pathname1 = extractSlug pathname2.
Proof.
  intros H.
  now rewrite <- (extractSlug_lower pathname1), H, extractSlug_lower.
Qed.

Lemma extractSlug_ignores_case_witness :
  extractSlug "/AbC-12?X=1" = extractSlug "/aBc-12?x=1".
Proof.
  apply (extractSlug_ignores_case "/AbC-12?X=1" "/aBc-12?x=1"). reflexivity.
Defined.

(* ------------------------------------------------------------------ *)
(** * Further properties of the lookup request *)

(** X4. An extracted slug needs no escaping: the lookup for it carries the
    slug as it is, in [slug=eq.<slug>]. *)
Theorem slug_sent_verbatim ds (pathname slug dom base credential : string) :
  extractSlug pathname = Some slug ->
  encodeURIComponent slug = slug
  /\ exists link,
       run (getLinkFromSupabase ds slug dom (VString base) (VString credential))
       = (Ok link,
          [mkRequest
             (base ++ "/rest/v1/links?slug=eq." ++ slug ++ "&domain=eq."
              ++ encodeURIComponent dom ++ "&select=" ++ select_columns)
             "GET"
             [("apikey", credential);
              ("Authorization", "Bearer " ++ credential);
              ("Content-Type", "application/json");
              ("Prefer", "return=representation")]]).
Proof.
  intros H. destruct (slug_is_canonical pathname slug H) as [_ Hchars].
  destruct (canonical_string slug Hchars) as [_ [_ [_ Hencode]]].
  split; [exact Hencode|].
  destruct (getLink_one_request ds slug dom (VString base) (VString credential) [])
    as [link Hrun].
  exists link. unfold run. rewrite Hrun. rewrite <- request_refines.
  cbn [to_string]. now rewrite Hencode.
Qed.

Lemma slug_sent_verbatim_witness :
  encodeURIComponent "ab-12" = "ab-12".
Proof.
  apply (slug_sent_verbatim Examples.unreachable "/AB-12?x=1" "ab-12"
           "goodlink.ai" "https://db.supabase.co" "service-key").
  reflexivity.
Defined.

Lemma escaped_is_no_delimiter (c : ascii) :
  Spec.escaped_char c = true ->
  negb (Ascii.eqb c "&") = true.
Proof.
  destruct c as [[] [] [] [] [] [] [] []]; vm_compute; congruence.
Qed.

Lemma forallb_impl (p q : ascii -> bool) (s : string) :
  (forall c, p c = true -> q c = true) ->
  Str.forallb p s = true -> Str.forallb q s = true.
Proof.
  intros Hpq. induction s as [|c s IH]; simpl; [reflexivity|].
  intros [Hc Hs]%andb_prop. now rewrite (Hpq c Hc), IH.
Qed.

(** Splitting goes piece by piece: a piece without the separator, then the
    separator, then the rest. *)
Lemma split_piece (sep : ascii) (piece rest : string) :
  Str.forallb (fun c => negb (Ascii.eqb c sep)) piece = true ->
  Str.split sep (piece ++ String sep rest) = piece :: Str.split sep rest.
Proof.
  induction piece as [|c piece IH]; simpl.
  - now rewrite Ascii.eqb_refl.
  - intros [Hc Hpiece]%andb_prop. apply negb_true_iff in Hc.
    now rewrite Hc, (IH Hpiece).
Qed.

(* ------------------------------------------------------------------ *)
(** * Further properties of the resolver *)

(** X7. Only the first row counts: two answers with the same status whose
    arrays start with the same element resolve alike, whatever rows
    follow and whatever the text of the body is. *)
Theorem first_row_only ds ds' (slug dom : string) (supabaseUrl supabaseKey : value)
    (r r' : reply) (x : json) (more more' : list json) :
  ds (Spec.lookup_request (to_string supabaseUrl) (to_string supabaseKey)
        slug dom) = Resolved r ->
  ds' (Spec.lookup_request (to_string supabaseUrl) (to_string supabaseKey)
         slug dom) = Resolved r' ->
  reply_status r = reply_status r' ->
  reply_json r = Some (JArr (x :: more)) ->
  reply_json r' = Some (JArr (x :: more')) ->
  run (getLinkFromSupabase ds slug dom supabaseUrl supabaseKey)
  = run (getLinkFromSupabase ds' slug dom supabaseUrl supabaseKey).
Proof.
  intros Hds Hds' Hstatus Hjson Hjson'. unfold run. run_resolver.
  rewrite request_refines, Hds, Hds'.
  assert (Hok : ok r' = ok r) by (unfold ok; now rewrite Hstatus).
  rewrite Hok. destruct (ok r); step_resolver.
  - now rewrite Hjson, Hjson'.
  - now destruct (reply_text r), (reply_text r').
Qed.

Lemma first_row_only_witness :
  run (getLinkFromSupabase
         (Examples.store [JObj (Examples.row_to (VString "https://x.com"));
                          JObj (Examples.row_to (VString "https://y.com"))])
         "abc123" "goodlink.ai" (VString "https://db.supabase.co")
         (VString "service-key"))
  = run (getLinkFromSupabase
           (Examples.store [JObj (Examples.row_to (VString "https://x.com"))])
           "abc123" "goodlink.ai" (VString "https://db.supabase.co")
           (VString "service-key")).
Proof.
  eapply (first_row_only _ _ "abc123" "goodlink.ai"
            (VString "https://db.supabase.co") (VString "service-key"));
    reflexivity.
Defined.

(** X8. Only the boolean [false] deactivates a link: the first row of a
    successful answer is what the resolver returns exactly when its status
    is anything else (absent, null, true, or a string, the string "false"
    included). *)
Theorem only_false_deactivates ds (slug dom : string)
    (supabaseUrl supabaseKey : value) (r : reply) (row : Link.t)
    (more : list json) :
  ds (Spec.lookup_request (to_string supabaseUrl) (to_string supabaseKey)
        slug dom) = Resolved r ->
  ok r = true ->
  reply_json r = Some (JArr (JObj row :: more)) ->
  (fst (run (getLinkFromSupabase ds slug dom supabaseUrl supabaseKey))
   = Ok (JObj row)
   <-> Link.status row <> VBool false)
  /\ (fst (run (getLinkFromSupabase ds slug dom supabaseUrl supabaseKey))
      = Ok null
      <-> Link.status row = VBool false).
Proof.
  intros Hds Hok Hjson. unfold run.
  rewrite (getLink_row ds slug dom supabaseUrl supabaseKey [] r row more
             Hds Hok Hjson).
  cbn [fst]. unfold null.
  destruct (Link.status row) as [| |[]|s]; cbn [is_false];
    split; split; intros H; try congruence; try discriminate.
Qed.

Lemma only_false_deactivates_witness :
  fst (run (getLinkFromSupabase
              (Examples.store
                 [JObj (Examples.with_status (VString "false")
                          (Examples.row_to (VString "https://x.com")))])
              "abc123" "goodlink.ai" (VString "https://db.supabase.co")
              (VString "service-key")))
  = Ok (JObj (Examples.with_status (VString "false")
                (Examples.row_to (VString "https://x.com")))).
Proof.
  eapply (only_false_deactivates _ "abc123" "goodlink.ai"
            (VString "https://db.supabase.co") (VString "service-key"));
    try reflexivity.
  discriminate.
Defined.

(** The resolver returns a row only as the first element of the array of a
    successful answer, its status not [false]. *)
Lemma getLink_inv ds (slug dom : string) (supabaseUrl supabaseKey : value)
    tr tr' (row : Link.t) :
  getLinkFromSupabase ds slug dom supabaseUrl supabaseKey tr
  = (Ok (JObj row), tr') ->
  exists r more,
    ds (Spec.lookup_request (to_string supabaseUrl) (to_string supabaseKey)
          slug dom) = Resolved r
    /\ ok r = true
    /\ reply_json r = Some (JArr (JObj row :: more))
    /\ is_false (Link.status row) = false.
Proof.
  run_resolver. rewrite request_refines.
  destruct (ds _) as [|r] eqn:Hds; [discriminate|].
  destruct (ok r) eqn:Hok; step_resolver.
  2: { destruct (reply_text r); discriminate. }
  destruct (reply_json r) as [data|] eqn:Hjson; [|discriminate].
  destruct data as [[| |[]|[|c s]]|row0|[|x more]]; step_resolver;
    try discriminate.
  destruct x as [[| |[]|s]|row0|items]; step_resolver; try discriminate.
  destruct (Link.status row0) as [| |[]|s] eqn:Hstatus; try discriminate;
    intros [= <- _]; exists r, more; rewrite Hstatus;
    repeat split; assumption.
Qed.

(* ------------------------------------------------------------------ *)
(** * Further properties of the handler *)

(** A request whose URL does not parse gets the catch-all 500. *)
Lemma fetch_bad_url P ds (request : Request) (env : Env) tr :
  truthy (SUPABASE_URL env) = true ->
  truthy (SUPABASE_SERVICE_ROLE_KEY env) = true ->
  URL_parse P (url request) = None ->
  fetch P ds request env tr = (Ok internal_error, tr).
Proof.
  intros Hurl Hkey Hparse. unfold fetch, try_catch, bind, new_URL.
  now rewrite Hurl, Hkey, Hparse.
Qed.

Lemma buildTargetUrl_never_throws P (targetUrl : value) (linkData : json)
    (requestUrl : URL) tr :
  exists final, buildTargetUrl P targetUrl linkData requestUrl tr = (Ok final, tr).
Proof.
  unfold buildTargetUrl, try_catch, bind, new_URL.
  destruct (URL_parse P (to_string targetUrl)) as [target|].
  - unfold ret at 1. cbv beta iota.
    destruct (composeParams_trace P target linkData requestUrl tr) as [o Ho].
    rewrite Ho. destruct o as [composed|e]; eexists; reflexivity.
  - eexists; reflexivity.
Qed.

(** What [respond] answers, and that it sends nothing. *)
Lemma respond_forms P (u : URL) (linkData : json) tr :
  exists response,
    respond P u linkData tr = (Ok response, tr)
    /\ (response = internal_error \/ response = link_not_found
        \/ exists location, response = redirect_to location).
Proof.
  unfold respond.
  destruct linkData as [v|row|items];
    try (exists link_not_found; split; [reflexivity|tauto]).
  destruct (truthy (Link.target_url row));
    [|exists link_not_found; split; [reflexivity|tauto]].
  destruct (buildTargetUrl_never_throws P (Link.target_url row) (JObj row) u tr)
    as [final ->].
  unfold Response_redirect.
  destruct (URL_parse P (to_string final)) as [parsed|].
  - exists (redirect_to (URL_href P parsed)). split; [reflexivity|].
    right. right. now exists (URL_href P parsed).
  - exists internal_error. split; [reflexivity|tauto].
Qed.

(** X9. Every request gets exactly one of four responses: the 500
    configuration error, the 500 internal error, the 404 [Link not found],
    or a 301 whose only header is Location and whose body is empty. *)
Theorem response_forms P ds (request : Request) (env : Env) :
  exists response tr,
    run (fetch P ds request env) = (Ok response, tr)
    /\ (response = config_error \/ response = internal_error
        \/ response = link_not_found
        \/ exists location, response = redirect_to location).
Proof.
  unfold run.
  destruct (truthy (SUPABASE_URL env)) eqn:Hurl.
  2: { exists config_error, []. split; [|tauto].
       apply fetch_unconfigured. now left. }
  destruct (truthy (SUPABASE_SERVICE_ROLE_KEY env)) eqn:Hkey.
  2: { exists config_error, []. split; [|tauto].
       apply fetch_unconfigured. now right. }
  destruct (URL_parse P (url request)) as [u|] eqn:Hparse.
  2: { exists internal_error, []. split; [|tauto]. now apply fetch_bad_url. }
  destruct (extractSlug (pathname u)) as [slug|] eqn:Hslug.
  2: { exists link_not_found, []. split; [|tauto].
       now apply fetch_no_slug with (u := u). }
  destruct (getLink_one_request ds slug (domain (hostname u)) (SUPABASE_URL env)
              (SUPABASE_SERVICE_ROLE_KEY env) []) as [linkData Hlink].
  rewrite (fetch_resolved P ds request env u slug linkData [] _
             Hurl Hkey Hparse Hslug Hlink).
  destruct (respond_forms P u linkData
              ([] ++ [Spec.lookup_request (to_string (SUPABASE_URL env))
                        (to_string (SUPABASE_SERVICE_ROLE_KEY env)) slug
                        (domain (hostname u))])%list)
    as [response [-> Hform]].
  exists response. eexists. split; [reflexivity|tauto].
Qed.

(** X10. The handler calls the datastore at most once, and exactly when
    the configuration is present, the request URL parses and its path
    holds a slug; the call is then the lookup of that slug for the
    hostname without its leading [www.]. *)
Theorem outbound_call P ds (request : Request) (env : Env) :
  snd (run (fetch P ds request env))
  = if truthy (SUPABASE_URL env) && truthy (SUPABASE_SERVICE_ROLE_KEY env)
    then match URL_parse P (url request) with
         | Some u =>
             match extractSlug (pathname u) with
             | Some slug =>
                 [Spec.lookup_request (to_string (SUPABASE_URL env))
                    (to_string (SUPABASE_SERVICE_ROLE_KEY env)) slug
                    (domain (hostname u))]
             | None => []
             end
         | None => []
         end
    else [].
Proof.
  unfold run.
  destruct (truthy (SUPABASE_URL env)) eqn:Hurl.
  2: { rewrite fetch_unconfigured; [reflexivity|now left]. }
  destruct (truthy (SUPABASE_SERVICE_ROLE_KEY env)) eqn:Hkey.
  2: { rewrite fetch_unconfigured; [reflexivity|now right]. }
  cbn [andb].
  destruct (URL_parse P (url request)) as [u|] eqn:Hparse.
  2: { now rewrite fetch_bad_url. }
  destruct (extractSlug (pathname u)) as [slug|] eqn:Hslug.
  2: { now rewrite (fetch_no_slug P ds request env u []). }
  destruct (getLink_one_request ds slug (domain (hostname u)) (SUPABASE_URL env)
              (SUPABASE_SERVICE_ROLE_KEY env) []) as [linkData Hlink].
  rewrite (fetch_resolved P ds request env u slug linkData [] _
             Hurl Hkey Hparse Hslug Hlink).
  now destruct (respond_forms P u linkData
              ([] ++ [Spec.lookup_request (to_string (SUPABASE_URL env))
                        (to_string (SUPABASE_SERVICE_ROLE_KEY env)) slug
                        (domain (hostname u))])%list)
    as [response [-> _]].
Qed.

(** A row comes back from the resolver only when the datastore's answer is
    none of the faults. *)
Lemma getLink_row_not_faulty ds (slug dom : string)
    (supabaseUrl supabaseKey : value) tr tr' (row : Link.t) :
  getLinkFromSupabase ds slug dom supabaseUrl supabaseKey tr
  = (Ok (JObj row), tr') ->
  Spec.faulty (ds (Spec.lookup_request (to_string supabaseUrl)
                     (to_string supabaseKey) slug dom)) = false
  /\ is_false (Link.status row) = false.
Proof.
  intros [r [more [Hds [Hok [Hjson Hactive]]]]]%getLink_inv.
  split; [|exact Hactive].
  unfold Spec.faulty. now rewrite Hds, Hok, Hjson.
Qed.

(** A response other than the 404 comes from [respond] on a record. *)
Lemma fetch_record_inv P ds (request : Request) (env : Env)
    (u : URL) (response : Response.t) :
  truthy (SUPABASE_URL env) = true ->
  truthy (SUPABASE_SERVICE_ROLE_KEY env) = true ->
  URL_parse P (url request) = Some u ->
  fst (run (fetch P ds request env)) = Ok response ->
  Response.status response <> 404%Z ->
  exists slug row tr,
    extractSlug (pathname u) = Some slug
    /\ getLinkFromSupabase ds slug (domain (hostname u)) (SUPABASE_URL env)
         (SUPABASE_SERVICE_ROLE_KEY env) [] = (Ok (JObj row), tr)
    /\ truthy (Link.target_url row) = true
    /\ fst (respond P u (JObj row) tr) = Ok response.
Proof.
  intros Hurl Hkey Hparse Hrun Hstatus. unfold run in Hrun.
  destruct (extractSlug (pathname u)) as [slug|] eqn:Hslug.
  2: { rewrite (fetch_no_slug P ds request env u [] Hurl Hkey Hparse Hslug)
         in Hrun.
       injection Hrun as <-. now contradiction Hstatus. }
  destruct (getLink_one_request ds slug (domain (hostname u)) (SUPABASE_URL env)
              (SUPABASE_SERVICE_ROLE_KEY env) []) as [linkData Hlink].
  rewrite (fetch_resolved P ds request env u slug linkData [] _
             Hurl Hkey Hparse Hslug Hlink) in Hrun.
  destruct linkData as [v|row|items];
    try (injection Hrun as <-; now contradiction Hstatus).
  destruct (truthy (Link.target_url row)) eqn:Htarget.
  2: { unfold respond in Hrun. rewrite Htarget in Hrun.
       injection Hrun as <-. now contradiction Hstatus. }
  exists slug, row. eexists. repeat split; eassumption.
Qed.

(** X11. A configured worker answers a request whose URL parses with
    something else than the 404 only for a record: the path holds a slug,
    the datastore's answer to the lookup is none of the faults (it
    resolved with a 2xx status and a body that parses, not to the empty
    array), and what the resolver returned is an object whose status is
    not [false] and whose target_url is truthy. *)
Theorem only_a_record_escapes_404 P ds (request : Request) (env : Env)
    (u : URL) (response : Response.t) :
  truthy (SUPABASE_URL env) = true ->
  truthy (SUPABASE_SERVICE_ROLE_KEY env) = true ->
  URL_parse P (url request) = Some u ->
  fst (run (fetch P ds request env)) = Ok response ->
  Response.status response <> 404%Z ->
  exists slug row,
    extractSlug (pathname u) = Some slug
    /\ Spec.faulty
         (ds (Spec.lookup_request (to_string (SUPABASE_URL env))
                (to_string (SUPABASE_SERVICE_ROLE_KEY env)) slug
                (domain (hostname u)))) = false
    /\ fst (run (getLinkFromSupabase ds slug (domain (hostname u))
                   (SUPABASE_URL env) (SUPABASE_SERVICE_ROLE_KEY env)))
       = Ok (JObj row)
    /\ is_false (Link.status row) = false
    /\ truthy (Link.target_url row) = true.
Proof.
  intros Hurl Hkey Hparse Hrun Hstatus.
  destruct (fetch_record_inv P ds request env u response
              Hurl Hkey Hparse Hrun Hstatus)
    as [slug [row [tr [Hslug [Hlink [Htarget _]]]]]].
  destruct (getLink_row_not_faulty ds slug (domain (hostname u))
              (SUPABASE_URL env) (SUPABASE_SERVICE_ROLE_KEY env) [] tr row Hlink)
    as [Hfaulty Hactive].
  exists slug, row. unfold run. rewrite Hlink. repeat split; assumption.
Qed.

Lemma only_a_record_escapes_404_witness :
  exists slug row,
    extractSlug "/abc123" = Some slug
    /\ Spec.faulty
         (Examples.store [JObj (Examples.row_to (VString "https://x.com"))]
            (Spec.lookup_request "https://db.supabase.co" "service-key" slug
               (domain "goodlink.ai"))) = false
    /\ fst (run (getLinkFromSupabase
                   (Examples.store
                      [JObj (Examples.row_to (VString "https://x.com"))])
                   slug (domain "goodlink.ai")
                   (VString "https://db.supabase.co") (VString "service-key")))
       = Ok (JObj row)
    /\ is_false (Link.status row) = false
    /\ truthy (Link.target_url row) = true.
Proof.
  apply (only_a_record_escapes_404 Reference.platform
           (Examples.store [JObj (Examples.row_to (VString "https://x.com"))])
           Examples.request Examples.env Examples.inbound
           (redirect_to "https://x.com/"));
    try reflexivity.
  discriminate.
Defined.

Lemma buildTargetUrl_reads_search P (targetUrl : value) (linkData : json)
    (u1 u2 : URL) tr :
  search u1 = search u2 ->
  buildTargetUrl P targetUrl linkData u1 tr
  = buildTargetUrl P targetUrl linkData u2 tr.
Proof.
  intros H. unfold buildTargetUrl, composeParams. now rewrite H.
Qed.

(** X12. A host that does not itself start with [www.] and its [www.]
    alias are served alike: two requests whose URLs have the same path and
    query, the hostname of the first being [www.] followed by the
    hostname of the second, which has no leading [www.], get the same
    response from the same lookup. *)
Theorem www_alias P ds (request1 request2 : Request) (env : Env)
    (u1 u2 : URL) :
  URL_parse P (url request1) = Some u1 ->
  URL_parse P (url request2) = Some u2 ->
  hostname u1 = "www." ++ hostname u2 ->
  String.prefix "www." (hostname u2) = false ->
  pathname u1 = pathname u2 ->
  search u1 = search u2 ->
  run (fetch P ds request1 env) = run (fetch P ds request2 env).
Proof.
  intros Hparse1 Hparse2 Hhost Hplain Hpath Hsearch. unfold run.
  destruct (truthy (SUPABASE_URL env)) eqn:Hurl.
  2: { rewrite !fetch_unconfigured; auto. }
  destruct (truthy (SUPABASE_SERVICE_ROLE_KEY env)) eqn:Hkey.
  2: { rewrite !fetch_unconfigured; auto. }
  destruct (extractSlug (pathname u2)) as [slug|] eqn:Hslug.
  2: { rewrite (fetch_no_slug P ds request1 env u1 []), 
         (fetch_no_slug P ds request2 env u2 []); congruence. }
  assert (Hdomain : domain (hostname u1) = domain (hostname u2)).
  { rewrite Hhost, !domain_refines, Hplain.
    change ("www." ++ hostname u2)
      with (String "w" (String "w" (String "w" (String "." (hostname u2))))).
    rewrite !prefix_cons. now destruct (hostname u2). }
  destruct (getLink_one_request ds slug (domain (hostname u2)) (SUPABASE_URL env)
              (SUPABASE_SERVICE_ROLE_KEY env) []) as [linkData Hlink].
  rewrite (fetch_resolved P ds request2 env u2 slug linkData [] _
             Hurl Hkey Hparse2 Hslug Hlink).
  rewrite <- Hpath in Hslug. rewrite <- Hdomain in Hlink.
  rewrite (fetch_resolved P ds request1 env u1 slug linkData [] _
             Hurl Hkey Hparse1 Hslug Hlink).
  rewrite Hdomain.
  unfold respond. destruct linkData as [v|row|items]; try reflexivity.
  now rewrite (buildTargetUrl_reads_search P _ _ u1 u2).
Qed.

Lemma www_alias_witness :
  run (fetch Reference.platform
         (Examples.store [JObj (Examples.row_nl (VBool true))])
         (mkInbound "GET" "https://www.goodlink.ai/abc123?ref=x") Examples.env)
  = run (fetch Reference.platform
           (Examples.store [JObj (Examples.row_nl (VBool true))])
           (mkInbound "GET" "https://goodlink.ai/abc123?ref=x") Examples.env).
Proof.
  eapply (www_alias Reference.platform _ _ _ Examples.env); reflexivity.
Defined.

(* ------------------------------------------------------------------ *)
(** * Further properties of the composer *)

Lemma same_location_refl (u : URL) : Props.same_location u u.
Proof. repeat split. Qed.

Lemma same_location_set P (name val : string) (u v : URL) :
  Props.same_location u v ->
  Props.same_location (searchParams_set P name val u) v.
Proof. intros H. exact H. Qed.

Lemma same_location_fold {A} (step : URL -> A -> URL) (l : list A) :
  (forall u a v, Props.same_location u v -> Props.same_location (step u a) v) ->
  forall u v, Props.same_location u v ->
  Props.same_location (fold_left step l u) v.
Proof.
  intros Hstep. induction l as [|a l IH]; intros u v H; simpl; [exact H|].
  apply IH, Hstep, H.
Qed.

Lemma same_location_compose P (target : URL) (row : Link.t)
    (inbound : list (string * string)) :
  Props.same_location (Spec.compose P target row inbound) target.
Proof.
  unfold Spec.compose, Spec.apply_utm, Spec.pass_through.
  assert (Hutm : Props.same_location
                   (fold_left
                      (fun t nf =>
                         if truthy (snd nf row)
                         then searchParams_set P (fst nf) (to_string (snd nf row)) t
                         else t) Spec.utm_fields target) target).
  { apply same_location_fold; [|apply same_location_refl].
    intros u a v H. destruct (truthy (snd a row)); [|exact H].
    now apply same_location_set. }
  destruct (truthy (Link.parameter_pass_through row)); [|exact Hutm].
  apply same_location_fold; [|exact Hutm].
  intros u a v H. destruct (includes utm_keys (fst a)); [exact H|].
  now apply same_location_set.
Qed.

(** X13. The composer changes nothing but the query: whatever the link
    data and the inbound request are, the URL it composes has the
    protocol, host, hostname, path and fragment of the parsed target, and
    composing sends nothing. *)
Theorem composer_keeps_location P (target : URL) (linkData : json)
    (requestUrl composed : URL) tr tr' :
  composeParams P target linkData requestUrl tr = (Ok composed, tr') ->
  Props.same_location composed target /\ tr' = tr.
Proof.
  destruct linkData as [[| |b|s]|row|items];
    try rewrite composeParams_row;
    try (unfold composeParams, bind, get, ret, throw; cbn;
         intros [= <- <-]; split; [apply same_location_refl|reflexivity]);
    try discriminate.
  intros [= <- <-]. split; [apply same_location_compose|reflexivity].
Qed.

Lemma composer_keeps_location_witness :
  Props.same_location
    (mkURL "https:" "dest.example" "dest.example" "/page"
       "?utm_source=nl&ref=x" [("utm_source", "nl"); ("ref", "x")] "#top")
    (mkURL "https:" "dest.example" "dest.example" "/page" "" [] "#top")
  /\ @nil http_request = [].
Proof.
  apply (composer_keeps_location Reference.platform
           (mkURL "https:" "dest.example" "dest.example" "/page" "" [] "#top")
           (JObj (Examples.row_nl (VBool true))) Examples.inbound_with_query
           (mkURL "https:" "dest.example" "dest.example" "/page"
              "?utm_source=nl&ref=x" [("utm_source", "nl"); ("ref", "x")] "#top")
           [] []).
  reflexivity.
Defined.

Lemma count_remove_same (name : string) (l : list (string * string)) :
  Props.count name (Params.remove name l) = 0.
Proof.
  unfold Props.count. induction l as [|[k v] l IH]; simpl; [reflexivity|].
  destruct (k =? name) eqn:Hk; [exact IH|]. simpl. now rewrite Hk.
Qed.

Lemma count_remove_other (k name : string) (l : list (string * string)) :
  k <> name -> Props.count k (Params.remove name l) = Props.count k l.
Proof.
  intros Hne. unfold Props.count.
  induction l as [|[k' v'] l IH]; simpl; [reflexivity|].
  destruct (String.eqb_spec k' name) as [->|Hk'].
  - destruct (String.eqb_spec name k); [congruence|exact IH].
  - simpl. destruct (k' =? k); simpl; now rewrite IH.
Qed.

Lemma count_set (k name val : string) (l : list (string * string)) :
  Props.count k (Params.set name val l)
  = if k =? name then 1 else Props.count k l.
Proof.
  destruct (String.eqb_spec k name) as [->|Hne].
  - induction l as [|[k' v'] l IH]; unfold Props.count in *; simpl.
    + now rewrite String.eqb_refl.
    + destruct (String.eqb_spec k' name) as [->|Hk']; simpl.
      * rewrite String.eqb_refl. simpl. f_equal. apply count_remove_same.
      * destruct (String.eqb_spec k' name); [congruence|exact IH].
  - induction l as [|[k' v'] l IH]; unfold Props.count in *; simpl.
    + destruct (String.eqb_spec name k); [congruence|reflexivity].
    + destruct (String.eqb_spec k' name) as [->|Hk']; simpl.
      * destruct (String.eqb_spec name k); [congruence|].
        now apply count_remove_other.
      * destruct (k' =? k); simpl; now rewrite IH.
Qed.

Lemma configured_none (row : Link.t) (k : string) :
  includes utm_keys k = false -> Spec.configured row k = None.
Proof.
  intros Hk. unfold Spec.configured, Spec.utm_fields. cbn [List.find fst].
  rewrite includes_utm in Hk. rewrite !(String.eqb_sym _ k).
  repeat match goal with
  | |- context [k =? ?c] => destruct (k =? c)
  end; try discriminate; reflexivity.
Qed.

Lemma count_apply_utm P (row : Link.t) (target : URL) (k : string) :
  Props.count k (searchParams (Spec.apply_utm P row target))
  = match Spec.configured row k with
    | Some _ => 1
    | None => Props.count k (searchParams target)
    end.
Proof.
  unfold Spec.apply_utm, Spec.configured, Spec.utm_fields.
  cbn [fold_left fst snd List.find].
  rewrite !(String.eqb_sym _ k).
  destruct (truthy (Link.utm_source row)) eqn:Hsource,
           (truthy (Link.utm_medium row)) eqn:Hmedium,
           (truthy (Link.utm_campaign row)) eqn:Hcampaign,
           (truthy (Link.utm_content row)) eqn:Hcontent;
  rewrite ?searchParams_after_set, ?count_set;
  repeat match goal with
  | |- context [k =? ?c] => destruct (String.eqb_spec k c) as [->|?]
  end; cbn;
  rewrite ?Hsource, ?Hmedium, ?Hcampaign, ?Hcontent;
  try reflexivity; try congruence.
Qed.

Lemma count_pass_through P (k : string) :
  forall (inbound : list (string * string)) (target : URL),
  Props.count k (searchParams (Spec.pass_through P inbound target))
  = if negb (includes utm_keys k) && existsb (fun kv => fst kv =? k) inbound
    then 1 else Props.count k (searchParams target).
Proof.
  unfold Spec.pass_through.
  induction inbound as [|[k' v'] inbound IH]; intros target.
  - cbn [fold_left existsb]. now rewrite andb_false_r.
  - cbn [fold_left fst snd existsb]. rewrite IH.
    destruct (includes utm_keys k) eqn:Hk; cbn [negb andb].
    + destruct (includes utm_keys k') eqn:Hk'; [reflexivity|].
      rewrite searchParams_after_set, count_set.
      destruct (String.eqb_spec k k') as [->|]; congruence.
    + destruct (existsb (fun kv => fst kv =? k) inbound);
        [now rewrite orb_true_r|]. rewrite orb_false_r.
      rewrite (String.eqb_sym k' k).
      destruct (includes utm_keys k') eqn:Hk'.
      * destruct (String.eqb_spec k k') as [->|]; [congruence|reflexivity].
      * now rewrite searchParams_after_set, count_set.
Qed.

(** X14. The composer sets, it never appends: in the composed query every
    name it sets (a configured UTM name, or with pass-through a name of
    the inbound query that is not a UTM name) occurs exactly once, even
    when the target or the inbound query held it several times; every
    other name occurs as often as in the target. *)
Theorem composer_sets_once P (target : URL) (row : Link.t) (requestUrl : URL) tr :
  exists composed,
    composeParams P target (JObj row) requestUrl tr = (Ok composed, tr)
    /\ forall name,
         Props.count name (searchParams composed)
         = if Props.touched row (URLSearchParams_parse P (search requestUrl)) name
           then 1
           else Props.count name (searchParams target).
Proof.
  eexists. split; [apply composeParams_row|].
  intros name. unfold Spec.compose, Props.touched.
  destruct (includes utm_keys name) eqn:Hname.
  - destruct (truthy (Link.parameter_pass_through row)).
    + rewrite count_pass_through, Hname. cbn [negb andb].
      rewrite count_apply_utm. now destruct (Spec.configured row name).
    + rewrite count_apply_utm. now destruct (Spec.configured row name).
  - destruct (truthy (Link.parameter_pass_through row)); cbn [andb].
    + rewrite count_pass_through, Hname. cbn [negb andb].
      rewrite count_apply_utm, (configured_none row name Hname).
      reflexivity.
    + now rewrite count_apply_utm, (configured_none row name Hname).
Qed.

Lemma filter_remove (p : string -> bool) (name : string)
    (l : list (string * string)) :
  p name = false ->
  filter (fun kv => p (fst kv)) (Params.remove name l)
  = filter (fun kv => p (fst kv)) l.
Proof.
  intros Hp. induction l as [|[k v] l IH]; simpl; [reflexivity|].
  destruct (String.eqb_spec k name) as [->|Hk]; simpl.
  - now rewrite Hp.
  - now rewrite IH.
Qed.

(** Setting a name leaves the pairs of the other names where they are. *)
Lemma filter_set (p : string -> bool) (name val : string)
    (l : list (string * string)) :
  p name = false ->
  filter (fun kv => p (fst kv)) (Params.set name val l)
  = filter (fun kv => p (fst kv)) l.
Proof.
  intros Hp. induction l as [|[k v] l IH]; simpl.
  - now rewrite Hp.
  - destruct (String.eqb_spec k name) as [->|Hk]; simpl.
    + rewrite Hp. now apply filter_remove.
    + now rewrite IH.
Qed.

Lemma filter_apply_utm P (p : string -> bool) (row : Link.t) (target : URL) :
  (forall name, Spec.configured row name <> None -> p name = false) ->
  filter (fun kv => p (fst kv)) (searchParams (Spec.apply_utm P row target))
  = filter (fun kv => p (fst kv)) (searchParams target).
Proof.
  intros Hp. unfold Spec.apply_utm, Spec.utm_fields.
  cbn [fold_left fst snd].
  pose proof (Hp "utm_source") as Hsource.
  pose proof (Hp "utm_medium") as Hmedium.
  pose proof (Hp "utm_campaign") as Hcampaign.
  pose proof (Hp "utm_content") as Hcontent.
  unfold Spec.configured, Spec.utm_fields in Hsource, Hmedium, Hcampaign, Hcontent.
  cbn in Hsource, Hmedium, Hcampaign, Hcontent.
  destruct (truthy (Link.utm_content row));
    [rewrite searchParams_after_set, filter_set by (apply Hcontent; discriminate)|];
  (destruct (truthy (Link.utm_campaign row));
    [rewrite searchParams_after_set, filter_set by (apply Hcampaign; discriminate)|]);
  (destruct (truthy (Link.utm_medium row));
    [rewrite searchParams_after_set, filter_set by (apply Hmedium; discriminate)|]);
  (destruct (truthy (Link.utm_source row));
    [rewrite searchParams_after_set, filter_set by (apply Hsource; discriminate)|]);
  reflexivity.
Qed.

Lemma filter_pass_through P (p : string -> bool) :
  forall (inbound : list (string * string)) (target : URL),
  (forall kv, In kv inbound -> includes utm_keys (fst kv) = false ->
              p (fst kv) = false) ->
  filter (fun kv => p (fst kv)) (searchParams (Spec.pass_through P inbound target))
  = filter (fun kv => p (fst kv)) (searchParams target).
Proof.
  unfold Spec.pass_through.
  induction inbound as [|[k v] inbound IH]; intros target Hp; [reflexivity|].
  cbn [fold_left fst snd]. rewrite IH.
  - destruct (includes utm_keys k) eqn:Hk; [reflexivity|].
    rewrite searchParams_after_set. apply filter_set.
    apply (Hp (k, v)); [now left|exact Hk].
  - intros kv Hin. apply Hp. now right.
Qed.

(** X15. The parameters the composer does not set stay as they are: the
    pairs of the composed query whose names it does not set are the pairs
    of the target's query with those names, with their values, in their
    order. *)
Theorem composer_keeps_other_parameters P (target : URL) (row : Link.t)
    (requestUrl : URL) tr :
  exists composed,
    composeParams P target (JObj row) requestUrl tr = (Ok composed, tr)
    /\ Props.untouched row (URLSearchParams_parse P (search requestUrl))
         (searchParams composed)
       = Props.untouched row (URLSearchParams_parse P (search requestUrl))
           (searchParams target).
Proof.
  eexists. split; [apply composeParams_row|].
  set (inbound := URLSearchParams_parse P (search requestUrl)).
  unfold Props.untouched, Spec.compose.
  assert (Hutm :
    filter (fun kv => negb (Props.touched row inbound (fst kv)))
      (searchParams (Spec.apply_utm P row target))
    = filter (fun kv => negb (Props.touched row inbound (fst kv)))
        (searchParams target)).
  { apply (filter_apply_utm P (fun name => negb (Props.touched row inbound name))).
    intros name Hconf. unfold Props.touched.
    destruct (includes utm_keys name) eqn:Hname.
    - now destruct (Spec.configured row name).
    - now rewrite (configured_none row name Hname) in Hconf. }
  destruct (truthy (Link.parameter_pass_through row)) eqn:Hpass; [|exact Hutm].
  rewrite (filter_pass_through P
             (fun name => negb (Props.touched row inbound name))); [exact Hutm|].
  intros kv Hin Hname. unfold Props.touched. rewrite Hname, Hpass.
  cbn [andb]. apply negb_false_iff. apply existsb_exists.
  exists kv. split; [exact Hin|apply String.eqb_refl].
Qed.

(* ------------------------------------------------------------------ *)
(** * Where a redirect leads *)

(** X16. A 301 of a configured worker leads where the record says: the
    resolver returned an object whose target_url parses as a URL, the
    Location is the serialisation of the URL composed from it, parsed once
    more, and the composed URL has the protocol, host, path and fragment
    of the target; the inbound request contributes to its query only. *)
Theorem redirect_follows_record P ds (request : Request) (env : Env)
    (u : URL) (response : Response.t) :
  truthy (SUPABASE_URL env) = true ->
  truthy (SUPABASE_SERVICE_ROLE_KEY env) = true ->
  URL_parse P (url request) = Some u ->
  fst (run (fetch P ds request env)) = Ok response ->
  Response.status response = 301%Z ->
  exists slug row target final,
    extractSlug (pathname u) = Some slug
    /\ fst (run (getLinkFromSupabase ds slug (domain (hostname u))
                   (SUPABASE_URL env) (SUPABASE_SERVICE_ROLE_KEY env)))
       = Ok (JObj row)
    /\ URL_parse P (to_string (Link.target_url row)) = Some target
    /\ Props.same_location
         (Spec.compose P target row (URLSearchParams_parse P (search u)))
         target
    /\ URL_parse P (URL_href P
         (Spec.compose P target row (URLSearchParams_parse P (search u))))
       = Some final
    /\ response = redirect_to (URL_href P final).
Proof.
  intros Hurl Hkey Hparse Hrun Hstatus.
  assert (Hnot404 : Response.status response <> 404%Z)
    by (rewrite Hstatus; discriminate).
  destruct (fetch_record_inv P ds request env u response
              Hurl Hkey Hparse Hrun Hnot404)
    as [slug [row [tr [Hslug [Hlink [Htruthy Hresp]]]]]].
  unfold respond in Hresp. rewrite Htruthy in Hresp.
  destruct (URL_parse P (to_string (Link.target_url row))) as [target|]
    eqn:Htarget.
  - rewrite (buildTargetUrl_row P _ row u target tr Htarget) in Hresp.
    unfold Response_redirect in Hresp. cbn [to_string] in Hresp.
    destruct (URL_parse P (URL_href P _)) as [final|] eqn:Hfinal.
    + injection Hresp as <-.
      exists slug, row, target, final. unfold run. rewrite Hlink.
      repeat split; try assumption; apply same_location_compose.
    + injection Hresp as <-. discriminate.
  - rewrite buildTargetUrl_unparseable in Hresp by assumption.
    unfold Response_redirect in Hresp. rewrite Htarget in Hresp.
    injection Hresp as <-. discriminate.
Qed.

Lemma redirect_follows_record_witness :
  exists slug row target final,
    extractSlug (pathname Examples.inbound_with_query) = Some slug
    /\ fst (run (getLinkFromSupabase
                   (Examples.store [JObj (Examples.row_nl (VBool true))])
                   slug (domain (hostname Examples.inbound_with_query))
                   (VString "https://db.supabase.co") (VString "service-key")))
       = Ok (JObj row)
    /\ Reference.parse (to_string (Link.target_url row)) = Some target
    /\ Props.same_location
         (Spec.compose Reference.platform target row
            (Reference.parse_query (search Examples.inbound_with_query)))
         target
    /\ Reference.parse (Reference.href
         (Spec.compose Reference.platform target row
            (Reference.parse_query (search Examples.inbound_with_query))))
       = Some final
    /\ redirect_to "https://dest.example/page?utm_source=nl&ref=x"
       = redirect_to (Reference.href final).
Proof.
  apply (redirect_follows_record Reference.platform
           (Examples.store [JObj (Examples.row_nl (VBool true))])
           Examples.request_with_query Examples.env
           Examples.inbound_with_query
           (redirect_to "https://dest.example/page?utm_source=nl&ref=x"));
    reflexivity.
Defined.

(* ------------------------------------------------------------------ *)
(** * The resolver on every JavaScript string *)

Lemma strong_list_ind {A} (P : list A -> Prop) :
  (forall s, (forall t, (List.length t < List.length s)%nat -> P t) -> P s) ->
  forall s, P s.
Proof.
  intros Hstep s. apply Hstep.
  induction s as [|a s IH]; intros t Ht; simpl in Ht; [lia|].
  apply Hstep. intros t' Ht'. apply IH. lia.
Qed.

(** On a code unit below 256 the full encoder does what [encode_unit] does. *)
Lemma encodeURIComponent_unit (c : ascii) (rest : Wide.wstring) :
  Wide.encodeURIComponent ((Ascii.zero, c) :: rest)
  = option_map (append (encode_unit c)) (Wide.encodeURIComponent rest).
Proof.
  cbn [Wide.encodeURIComponent fst snd].
  destruct (Wide.encodeURIComponent rest) as [e|];
    destruct c as [[] [] [] [] [] [] [] []]; reflexivity.
Qed.

(** The model on code units below 256 is the restriction of the full one:
    there [encodeURIComponent] never throws. *)
Lemma encodeURIComponent_units (s : string) :
  Wide.encodeURIComponent (Wide.units s) = Some (encodeURIComponent s).
Proof.
  induction s as [|c s IH]; [reflexivity|].
  change (Wide.units (String c s)) with ((Ascii.zero, c) :: Wide.units s).
  now rewrite encodeURIComponent_unit, IH.
Qed.

Lemma getLinkFromSupabase_units ds (slug dom : string)
    (supabaseUrl supabaseKey : value) tr :
  Wide.getLinkFromSupabase ds (Wide.units slug) (Wide.units dom)
    supabaseUrl supabaseKey tr
  = getLinkFromSupabase ds slug dom supabaseUrl supabaseKey tr.
Proof.
  unfold Wide.getLinkFromSupabase, getLinkFromSupabase, Wide.encode.
  now rewrite !encodeURIComponent_units.
Qed.

Lemma lead_is_no_trail (u : Wide.unit16) :
  Wide.is_trail u = false -> Wide.is_lead u = true ->
  (55296 <= Wide.code u <= 56319)%N.
Proof.
  unfold Wide.is_lead, Wide.code, Str.between, Str.code.
  intros _ [Hlo Hhi]%andb_prop. apply N.leb_le in Hlo, Hhi.
  pose proof (N_ascii_bounded (snd u)). lia.
Qed.

Lemma trail_range (u : Wide.unit16) :
  Wide.is_trail u = true -> (56320 <= Wide.code u <= 57343)%N.
Proof.
  unfold Wide.is_trail, Wide.code, Str.between, Str.code.
  intros [Hlo Hhi]%andb_prop. apply N.leb_le in Hlo, Hhi.
  pose proof (N_ascii_bounded (snd u)). lia.
Qed.

Lemma code_range (u : Wide.unit16) : (Wide.code u < 65536)%N.
Proof.
  unfold Wide.code, Str.code.
  pose proof (N_ascii_bounded (fst u)). pose proof (N_ascii_bounded (snd u)).
  lia.
Qed.

Lemma hex_digit_escaped (n : N) :
  (n < 16)%N -> Spec.escaped_char (hex_digit n) = true.
Proof.
  intros H.
  assert (Hn : In n [0; 1; 2; 3; 4; 5; 6; 7; 8; 9; 10; 11; 12; 13; 14; 15]%N).
  { simpl. lia. }
  simpl in Hn.
  repeat (destruct Hn as [<-|Hn]; [reflexivity|]). contradiction.
Qed.

Lemma percent_escaped (b : N) :
  (b < 256)%N -> Str.forallb Spec.escaped_char (percent b) = true.
Proof.
  intros H. unfold percent. cbn [Str.forallb].
  rewrite !hex_digit_escaped; [reflexivity| |].
  - apply N.mod_lt. discriminate.
  - apply N.Div0.div_lt_upper_bound. exact H.
Qed.

Lemma utf8_octets (cp : N) :
  (cp < 2097152)%N -> Forall (fun b => (b < 256)%N) (Wide.utf8 cp).
Proof.
  intros H. unfold Wide.utf8.
  destruct (N.ltb_spec cp 128); [|destruct (N.ltb_spec cp 2048);
    [|destruct (N.ltb_spec cp 65536)]];
    repeat constructor; zify; Z.to_euclidean_division_equations; lia.
Qed.

Lemma escape_escaped (octets : list N) :
  Forall (fun b => (b < 256)%N) octets ->
  Str.forallb Spec.escaped_char (Wide.escape octets) = true.
Proof.
  induction 1 as [|b octets Hb _ IH]; [reflexivity|].
  unfold Wide.escape in *. cbn [fold_right].
  rewrite forallb_app, IH. now rewrite percent_escaped.
Qed.

(** What the full encoder returns is made of unreserved characters and
    percent-escapes. *)
Lemma wide_encode_escaped : forall (s : Wide.wstring) (e : string),
  Wide.encodeURIComponent s = Some e ->
  Str.forallb Spec.escaped_char e = true.
Proof.
  induction s as [s IH] using strong_list_ind. intros e.
  destruct s as [|u rest]; [intros [= <-]; reflexivity|].
  cbn [Wide.encodeURIComponent].
  destruct (Ascii.eqb (fst u) zero && unreserved (snd u)) eqn:Hplain.
  - destruct (Wide.encodeURIComponent rest) as [e'|] eqn:He'; [|discriminate].
    intros [= <-]. cbn [Str.forallb].
    apply andb_prop in Hplain as [_ Hplain].
    unfold Spec.escaped_char at 1. rewrite Hplain. cbn [orb andb].
    apply (IH rest); [simpl; lia|exact He'].
  - destruct (Wide.is_trail u) eqn:Htrail; [discriminate|].
    destruct (Wide.is_lead u) eqn:Hlead.
    + destruct rest as [|v rest']; [discriminate|].
      destruct (Wide.is_trail v) eqn:Hv; [|discriminate].
      destruct (Wide.encodeURIComponent rest') as [e'|] eqn:He'; [|discriminate].
      intros [= <-]. rewrite forallb_app.
      rewrite (IH rest' ltac:(simpl; lia) e' He'), andb_true_r.
      apply escape_escaped, utf8_octets. unfold Wide.pair_point.
      pose proof (lead_is_no_trail u Htrail Hlead).
      pose proof (trail_range v Hv). lia.
    + destruct (Wide.encodeURIComponent rest) as [e'|] eqn:He'; [|discriminate].
      intros [= <-]. rewrite forallb_app.
      rewrite (IH rest ltac:(simpl; lia) e' He'), andb_true_r.
      apply escape_escaped, utf8_octets.
      pose proof (code_range u). lia.
Qed.

(** The URIError is thrown exactly on the strings with a lone surrogate. *)
Lemma wide_encode_defined : forall s : Wide.wstring,
  match Wide.encodeURIComponent s with Some _ => true | None => false end
  = Wide.well_formed s.
Proof.
  induction s as [s IH] using strong_list_ind.
  destruct s as [|u rest]; [reflexivity|].
  cbn [Wide.encodeURIComponent Wide.well_formed].
  destruct (Ascii.eqb (fst u) zero && unreserved (snd u)) eqn:Hplain.
  - apply andb_prop in Hplain as [Hzero _]. apply Ascii.eqb_eq in Hzero.
    unfold Wide.is_trail, Wide.is_lead. rewrite Hzero. cbn.
    rewrite <- (IH rest) by (simpl; lia).
    now destruct (Wide.encodeURIComponent rest).
  - destruct (Wide.is_trail u); [reflexivity|].
    destruct (Wide.is_lead u).
    + destruct rest as [|v rest']; [reflexivity|].
      destruct (Wide.is_trail v); [|reflexivity]. cbn [andb].
      rewrite <- (IH rest') by (simpl; lia).
      now destruct (Wide.encodeURIComponent rest').
    + rewrite <- (IH rest) by (simpl; lia).
      now destruct (Wide.encodeURIComponent rest).
Qed.

Lemma wide_encode_some (s : Wide.wstring) :
  Wide.well_formed s = true -> exists e, Wide.encodeURIComponent s = Some e.
Proof.
  rewrite <- wide_encode_defined.
  destruct (Wide.encodeURIComponent s) as [e|]; [now exists e|discriminate].
Qed.

Lemma wide_encode_none (s : Wide.wstring) :
  Wide.well_formed s = false -> Wide.encodeURIComponent s = None.
Proof.
  rewrite <- wide_encode_defined.
  now destruct (Wide.encodeURIComponent s).
Qed.

Lemma no_ampersand (prefix encoded : string) :
  Str.forallb (fun c => negb (Ascii.eqb c "&")) prefix = true ->
  Str.forallb Spec.escaped_char encoded = true ->
  Str.forallb (fun c => negb (Ascii.eqb c "&")) (prefix ++ encoded) = true.
Proof.
  intros Hprefix Hencoded. rewrite forallb_app, Hprefix. cbn [andb].
  now apply (forallb_impl Spec.escaped_char); [exact escaped_is_no_delimiter|].
Qed.

(** A query written with two encoded values reads back as its three
    parameters. *)
Lemma lookup_query_parse (slug_ domain_ : string) :
  Str.forallb Spec.escaped_char slug_ = true ->
  Str.forallb Spec.escaped_char domain_ = true ->
  Reference.parse_query
    ("slug=eq." ++ slug_ ++ "&domain=eq." ++ domain_ ++ "&select="
     ++ select_columns)
  = [("slug", "eq." ++ slug_); ("domain", "eq." ++ domain_);
     ("select", select_columns)].
Proof.
  intros Hslug Hdomain. unfold Reference.parse_query.
  lazymatch goal with
  | |- context [Str.split "&" ?q] =>
      change q
        with (("slug=eq." ++ slug_)
              ++ String "&" (("domain=eq." ++ domain_)
                             ++ String "&" ("select=" ++ select_columns)))
  end.
  rewrite (split_piece "&" ("slug=eq." ++ slug_)) by now apply no_ampersand.
  rewrite (split_piece "&" ("domain=eq." ++ domain_)) by now apply no_ampersand.
  reflexivity.
Qed.

(** With both values encoded, the resolver never throws and issues the one
    request written with them. *)
Lemma wide_getLink_one_request ds (slug dom : Wide.wstring)
    (supabaseUrl supabaseKey : value) (slug_ domain_ : string) tr :
  Wide.encodeURIComponent slug = Some slug_ ->
  Wide.encodeURIComponent dom = Some domain_ ->
  exists link,
    Wide.getLinkFromSupabase ds slug dom supabaseUrl supabaseKey tr
    = (Ok link,
       List.app tr
         [mkRequest
            (to_string supabaseUrl ++ "/rest/v1/links?slug=eq."
             ++ slug_ ++ "&domain=eq." ++ domain_ ++ "&select="
             ++ select_columns)
            "GET"
            [("apikey", to_string supabaseKey);
             ("Authorization", "Bearer " ++ to_string supabaseKey);
             ("Content-Type", "application/json");
             ("Prefer", "return=representation")]]).
Proof.
  intros Hslug Hdom.
  unfold Wide.getLinkFromSupabase, Wide.encode, try_catch, bind.
  rewrite Hslug, Hdom. unfold ret at 1 2. cbv beta iota. unfold http_fetch.
  destruct (ds _) as [|r]; [eexists; reflexivity|].
  destruct (ok r); step_resolver.
  2: { destruct (reply_text r); eexists; reflexivity. }
  destruct (reply_json r) as [data|]; [|eexists; reflexivity].
  destruct data as [[| |[]|[|c s]]|row|[|x more]]; step_resolver;
    try (eexists; reflexivity).
  destruct x as [[| |[]|s]|row|items]; step_resolver;
    try (eexists; reflexivity).
  destruct (Link.status row) as [| |[]|s]; eexists; reflexivity.
Qed.

(** With a lone surrogate in the slug or the domain, line 98 throws inside
    the try: the resolver returns null and nothing is sent. *)
Lemma wide_getLink_no_request ds (slug dom : Wide.wstring)
    (supabaseUrl supabaseKey : value) tr :
  Wide.well_formed slug = false \/ Wide.well_formed dom = false ->
  Wide.getLinkFromSupabase ds slug dom supabaseUrl supabaseKey tr
  = (Ok null, tr).
Proof.
  intros H. unfold Wide.getLinkFromSupabase, Wide.encode, try_catch, bind.
  destruct (Wide.encodeURIComponent slug) as [slug_|] eqn:Hslug.
  - destruct H as [H|H].
    + now rewrite (wide_encode_none slug H) in Hslug.
    + now rewrite (wide_encode_none dom H).
  - reflexivity.
Qed.

(** C8, as the code has it. For every slug and domain that hold no lone
    surrogate, every base URL and credential, and whatever the datastore
    does, getLinkFromSupabase issues exactly one request: a GET of
    [{BASE_URL}/rest/v1/links] with the query parameters [slug=eq.<slug>],
    [domain=eq.<domain>] and the select list of the seven columns, the
    slug and the domain percent-encoded (unreserved characters and
    escapes only), and the four headers, apikey and the bearer token
    carrying the same credential. *)
Theorem one_lookup_request_if_well_formed ds (slug dom : Wide.wstring)
    (base credential : string) :
  Wide.well_formed slug = true ->
  Wide.well_formed dom = true ->
  exists link slug_ domain_,
    Wide.encodeURIComponent slug = Some slug_
    /\ Wide.encodeURIComponent dom = Some domain_
    /\ run (Wide.getLinkFromSupabase ds slug dom (VString base)
              (VString credential))
       = (Ok link,
          [mkRequest
             (base ++ "/rest/v1/links" ++ "?"
              ++ Spec.query [("slug", "eq." ++ slug_);
                             ("domain", "eq." ++ domain_);
                             ("select", Str.join "," Spec.columns)])
             "GET"
             [("apikey", credential);
              ("Authorization", "Bearer " ++ credential);
              ("Content-Type", "application/json");
              ("Prefer", "return=representation")]])
    /\ Str.forallb Spec.escaped_char slug_ = true
    /\ Str.forallb Spec.escaped_char domain_ = true.
Proof.
  intros [slug_ Hslug]%wide_encode_some [domain_ Hdom]%wide_encode_some.
  destruct (wide_getLink_one_request ds slug dom (VString base)
              (VString credential) slug_ domain_ [] Hslug Hdom) as [link Hrun].
  exists link, slug_, domain_.
  split; [exact Hslug|]. split; [exact Hdom|].
  split; [exact Hrun|].
  split; eapply wide_encode_escaped; eassumption.
Qed.

Lemma one_lookup_request_if_well_formed_witness :
  exists link slug_ domain_,
    Wide.encodeURIComponent (Wide.units "abc123") = Some slug_
    /\ Wide.encodeURIComponent (Wide.units "goodlink.ai") = Some domain_
    /\ run (Wide.getLinkFromSupabase Examples.unreachable
              (Wide.units "abc123") (Wide.units "goodlink.ai")
              (VString "https://db.supabase.co") (VString "service-key"))
       = (Ok link,
          [mkRequest
             ("https://db.supabase.co" ++ "/rest/v1/links" ++ "?"
              ++ Spec.query [("slug", "eq." ++ slug_);
                             ("domain", "eq." ++ domain_);
                             ("select", Str.join "," Spec.columns)])
             "GET"
             [("apikey", "service-key");
              ("Authorization", "Bearer " ++ "service-key");
              ("Content-Type", "application/json");
              ("Prefer", "return=representation")]])
    /\ Str.forallb Spec.escaped_char slug_ = true
    /\ Str.forallb Spec.escaped_char domain_ = true.
Proof.
  apply (one_lookup_request_if_well_formed Examples.unreachable
           (Wide.units "abc123") (Wide.units "goodlink.ai")
           "https://db.supabase.co" "service-key"); reflexivity.
Defined.

(** The claim C8 as the specification words it fails: for the slug [abc]
    followed by the lone surrogate U+D800, encodeURIComponent throws, the
    resolver returns null and no request is issued, although the datastore
    holds a row. *)
Lemma lone_surrogate_issues_no_request :
  Wide.encodeURIComponent (Wide.units "abc" ++ Wide.lone_surrogate)%list = None
  /\ run (Wide.getLinkFromSupabase
            (Examples.store [JObj (Examples.row_to (VString "https://x.com"))])
            (Wide.units "abc" ++ Wide.lone_surrogate)%list
            (Wide.units "goodlink.ai")
            (VString "https://db.supabase.co") (VString "service-key"))
     = (Ok null, []).
Proof. split; reflexivity. Qed.

(** The full encoder on the examples: an astral character is escaped as
    its four UTF-8 octets, and on a string of code units below 256 the
    request is the one of the narrow model. *)
Example wide_examples :
  Wide.encodeURIComponent Wide.grinning_face = Some "%F0%9F%98%80"
  /\ Wide.encodeURIComponent (Wide.units "a&b=c d/#?")
     = Some "a%26b%3Dc%20d%2F%23%3F"
  /\ run (Wide.getLinkFromSupabase
            (Examples.store [JObj (Examples.row_to (VString "https://x.com"))])
            (Wide.units "abc123") (Wide.units "goodlink.ai")
            (VString "https://db.supabase.co") (VString "service-key"))
     = (Ok (JObj (Examples.row_to (VString "https://x.com"))),
        [mkRequest
           "https://db.supabase.co/rest/v1/links?slug=eq.abc123&domain=eq.goodlink.ai&select=target_url,parameter_pass_through,utm_source,utm_medium,utm_campaign,utm_content,status"
           "GET"
           [("apikey", "service-key");
            ("Authorization", "Bearer service-key");
            ("Content-Type", "application/json");
            ("Prefer", "return=representation")]]).
Proof. repeat split. Qed.

(** X5. The values cannot break out of their parameters. Whatever the
    slug and the domain are: when neither holds a lone surrogate, the
    query of the one lookup issued splits, at [&] and at the first [=] of
    each piece, into the three parameters slug, domain and select and
    nothing else; when one does, no lookup is issued and the result is
    null. *)
Theorem lookup_query_parameters ds (slug dom : Wide.wstring)
    (base credential : string) :
  if Wide.well_formed slug && Wide.well_formed dom
  then exists link q slug_ domain_,
         Wide.encodeURIComponent slug = Some slug_
         /\ Wide.encodeURIComponent dom = Some domain_
         /\ run (Wide.getLinkFromSupabase ds slug dom (VString base)
                   (VString credential))
            = (Ok link,
               [mkRequest (base ++ "/rest/v1/links?" ++ q) "GET"
                  [("apikey", credential);
                   ("Authorization", "Bearer " ++ credential);
                   ("Content-Type", "application/json");
                   ("Prefer", "return=representation")]])
         /\ Reference.parse_query q
            = [("slug", "eq." ++ slug_); ("domain", "eq." ++ domain_);
               ("select", select_columns)]
  else run (Wide.getLinkFromSupabase ds slug dom (VString base)
              (VString credential))
       = (Ok null, []).
Proof.
  destruct (Wide.well_formed slug) eqn:Wslug.
  2: { apply wide_getLink_no_request. now left. }
  destruct (Wide.well_formed dom) eqn:Wdom.
  2: { apply wide_getLink_no_request. now right. }
  cbn [andb].
  destruct (wide_encode_some slug Wslug) as [slug_ Hslug].
  destruct (wide_encode_some dom Wdom) as [domain_ Hdom].
  destruct (wide_getLink_one_request ds slug dom (VString base)
              (VString credential) slug_ domain_ [] Hslug Hdom) as [link Hrun].
  exists link,
    ("slug=eq." ++ slug_ ++ "&domain=eq." ++ domain_ ++ "&select="
     ++ select_columns), slug_, domain_.
  split; [exact Hslug|]. split; [exact Hdom|]. split; [exact Hrun|].
  apply lookup_query_parse; eapply wide_encode_escaped; eassumption.
Qed.

(* ------------------------------------------------------------------ *)
(** * The encoder loses nothing *)

Lemma unit_of_code (u : Wide.unit16) : Wide.unit_of (Wide.code u) = u.
Proof.
  destruct u as [h l]. unfold Wide.unit_of, Wide.code, Str.code. cbn [fst snd].
  pose proof (N_ascii_bounded h) as Hh. pose proof (N_ascii_bounded l) as Hl.
  replace ((256 * N_of_ascii h + N_of_ascii l) / 256)%N with (N_of_ascii h)
    by (zify; Z.to_euclidean_division_equations; lia).
  replace ((256 * N_of_ascii h + N_of_ascii l) mod 256)%N with (N_of_ascii l)
    by (zify; Z.to_euclidean_division_equations; lia).
  now rewrite !ascii_N_embedding.
Qed.

(** The octets of a code point of the basic plane spell its code unit. *)
Lemma utf8_units_basic (cp : N) (rest : list N) :
  (cp < 65536)%N ->
  Wide.utf8_units (Wide.utf8 cp ++ rest)
  = Wide.unit_of cp :: Wide.utf8_units rest.
Proof.
  intros Hcp. unfold Wide.utf8.
  destruct (N.ltb_spec cp 128) as [H1|H1].
  - cbn [app Wide.utf8_units].
    destruct (N.ltb_spec cp 128); [reflexivity|lia].
  - destruct (N.ltb_spec cp 2048) as [H2|H2].
    + cbn [app Wide.utf8_units].
      destruct (N.ltb_spec (192 + cp / 64) 128);
        [zify; Z.to_euclidean_division_equations; lia|].
      destruct (N.ltb_spec (192 + cp / 64) 224);
        [|zify; Z.to_euclidean_division_equations; lia].
      do 2 f_equal. zify; Z.to_euclidean_division_equations; lia.
    + destruct (N.ltb_spec cp 65536) as [H3|H3]; [|lia].
      cbn [app Wide.utf8_units].
      destruct (N.ltb_spec (224 + cp / 4096) 128);
        [zify; Z.to_euclidean_division_equations; lia|].
      destruct (N.ltb_spec (224 + cp / 4096) 224);
        [zify; Z.to_euclidean_division_equations; lia|].
      destruct (N.ltb_spec (224 + cp / 4096) 240);
        [|zify; Z.to_euclidean_division_equations; lia].
      do 2 f_equal. zify; Z.to_euclidean_division_equations; lia.
Qed.

(** The octets of a surrogate pair's code point spell the pair. *)
Lemma utf8_units_pair (u v : Wide.unit16) (rest : list N) :
  (55296 <= Wide.code u <= 56319)%N ->
  (56320 <= Wide.code v <= 57343)%N ->
  Wide.utf8_units (Wide.utf8 (Wide.pair_point u v) ++ rest)
  = u :: v :: Wide.utf8_units rest.
Proof.
  intros Hu Hv. unfold Wide.pair_point.
  set (cp := (65536 + (Wide.code u - 55296) * 1024 + (Wide.code v - 56320))%N).
  assert (Hcp : (65536 <= cp < 1114112)%N) by (unfold cp; lia).
  unfold Wide.utf8.
  destruct (N.ltb_spec cp 128); [lia|].
  destruct (N.ltb_spec cp 2048); [lia|].
  destruct (N.ltb_spec cp 65536); [lia|].
  cbn [app Wide.utf8_units].
  destruct (N.ltb_spec (240 + cp / 262144) 128);
    [zify; Z.to_euclidean_division_equations; lia|].
  destruct (N.ltb_spec (240 + cp / 262144) 224);
    [zify; Z.to_euclidean_division_equations; lia|].
  destruct (N.ltb_spec (240 + cp / 262144) 240);
    [zify; Z.to_euclidean_division_equations; lia|].
  cbv zeta.
  replace ((240 + cp / 262144 - 240) * 262144
           + (128 + (cp / 4096) mod 64 - 128) * 4096
           + (128 + (cp / 64) mod 64 - 128) * 64 + (128 + cp mod 64 - 128))%N
    with cp by (zify; Z.to_euclidean_division_equations; lia).
  replace (55296 + (cp - 65536) / 1024)%N with (Wide.code u)
    by (unfold cp; zify; Z.to_euclidean_division_equations; lia).
  replace (56320 + (cp - 65536) mod 1024)%N with (Wide.code v)
    by (unfold cp; zify; Z.to_euclidean_division_equations; lia).
  now rewrite !unit_of_code.
Qed.

Lemma unescape_percent (b : N) (e : string) :
  (b < 256)%N ->
  Spec.unescape (percent b ++ e) = option_map (cons b) (Spec.unescape e).
Proof.
  intros Hb. rewrite <- (N_ascii_embedding b Hb).
  destruct (ascii_of_N b) as [[] [] [] [] [] [] [] []];
    (cbn; now destruct (Spec.unescape e)).
Qed.

Lemma string_app_assoc (a b c : string) : (a ++ b) ++ c = a ++ (b ++ c).
Proof. induction a as [|x a IH]; simpl; congruence. Qed.

Lemma unescape_escape (octets : list N) (e : string) :
  Forall (fun b => (b < 256)%N) octets ->
  Spec.unescape (Wide.escape octets ++ e)
  = option_map (app octets) (Spec.unescape e).
Proof.
  induction 1 as [|b octets Hb _ IH].
  - change (Wide.escape [] ++ e) with e. now destruct (Spec.unescape e).
  - unfold Wide.escape in *. cbn [fold_right].
    rewrite string_app_assoc, unescape_percent, IH by exact Hb.
    now destruct (Spec.unescape e).
Qed.

Lemma unescape_unreserved (c : ascii) (e : string) :
  unreserved c = true ->
  Spec.unescape (String c e) = option_map (cons (Str.code c)) (Spec.unescape e)
  /\ (Str.code c <? 128)%N = true
  /\ Wide.unit_of (Str.code c) = (Ascii.zero, c).
Proof.
  destruct c as [[] [] [] [] [] [] [] []]; intros H; try discriminate H;
    (split; [cbn; now destruct (Spec.unescape e)|split; reflexivity]).
Qed.

(** What the encoder writes reads back as the string it was given. *)
Lemma wide_encode_decodes : forall (s : Wide.wstring) (e : string),
  Wide.encodeURIComponent s = Some e ->
  exists octets, Spec.unescape e = Some octets /\ Wide.utf8_units octets = s.
Proof.
  induction s as [s IH] using strong_list_ind. intros e.
  destruct s as [|u rest]; [intros [= <-]; now exists []|].
  cbn [Wide.encodeURIComponent].
  destruct (Ascii.eqb (fst u) zero && unreserved (snd u)) eqn:Hplain.
  - destruct (Wide.encodeURIComponent rest) as [e'|] eqn:He'; [|discriminate].
    intros [= <-].
    destruct (IH rest ltac:(simpl; lia) e' He') as [octets [Hun Hdec]].
    apply andb_prop in Hplain as [Hzero Hplain]. apply Ascii.eqb_eq in Hzero.
    destruct (unescape_unreserved (snd u) e' Hplain) as [H1 [H2 H3]].
    exists (Str.code (snd u) :: octets). split.
    + now rewrite H1, Hun.
    + cbn [Wide.utf8_units]. rewrite H2, H3, Hdec.
      destruct u as [h l]. cbn [fst snd] in *. now subst h.
  - destruct (Wide.is_trail u) eqn:Htrail; [discriminate|].
    destruct (Wide.is_lead u) eqn:Hlead.
    + destruct rest as [|v rest']; [discriminate|].
      destruct (Wide.is_trail v) eqn:Hv; [|discriminate].
      destruct (Wide.encodeURIComponent rest') as [e'|] eqn:He'; [|discriminate].
      intros [= <-].
      destruct (IH rest' ltac:(simpl; lia) e' He') as [octets [Hun Hdec]].
      pose proof (lead_is_no_trail u Htrail Hlead) as Hu.
      pose proof (trail_range v Hv) as Hvr.
      exists (Wide.utf8 (Wide.pair_point u v) ++ octets)%list. split.
      * rewrite unescape_escape, Hun; [reflexivity|].
        apply utf8_octets. unfold Wide.pair_point. lia.
      * now rewrite utf8_units_pair, Hdec.
    + destruct (Wide.encodeURIComponent rest) as [e'|] eqn:He'; [|discriminate].
      intros [= <-].
      destruct (IH rest ltac:(simpl; lia) e' He') as [octets [Hun Hdec]].
      pose proof (code_range u) as Hu.
      exists (Wide.utf8 (Wide.code u) ++ octets)%list. split.
      * rewrite unescape_escape, Hun; [reflexivity|].
        apply utf8_octets. lia.
      * now rewrite utf8_units_basic, unit_of_code, Hdec.
Qed.

Lemma wide_encode_injective (s s' : Wide.wstring) (e : string) :
  Wide.encodeURIComponent s = Some e ->
  Wide.encodeURIComponent s' = Some e ->
  s = s'.
Proof.
  intros [octets [Hun <-]]%wide_encode_decodes
         [octets' [Hun' <-]]%wide_encode_decodes.
  congruence.
Qed.

Lemma append_inv_head (a b c : string) : a ++ b = a ++ c -> b = c.
Proof.
  induction a as [|x a IH]; simpl; [trivial|].
  intros [= H]. now apply IH.
Qed.

(** X6. Different links are never looked up with the same request: when
    two lookups with the same base URL and credential issue the same
    request, their slugs are equal and their domains are equal, whatever
    JavaScript strings they are. *)
Theorem lookup_request_determines_link ds ds'
    (slug slug' dom dom' : Wide.wstring) (base credential : string) :
  snd (run (Wide.getLinkFromSupabase ds slug dom (VString base)
              (VString credential)))
  = snd (run (Wide.getLinkFromSupabase ds' slug' dom' (VString base)
                (VString credential))) ->
  snd (run (Wide.getLinkFromSupabase ds slug dom (VString base)
              (VString credential))) <> [] ->
  slug = slug' /\ dom = dom'.
Proof.
  unfold run. intros Hsame Hsent.
  destruct (Wide.well_formed slug) eqn:Wslug.
  2: { rewrite wide_getLink_no_request in Hsent by now left.
       now contradiction Hsent. }
  destruct (Wide.well_formed dom) eqn:Wdom.
  2: { rewrite wide_getLink_no_request in Hsent by now right.
       now contradiction Hsent. }
  destruct (wide_encode_some slug Wslug) as [slug_ Hslug].
  destruct (wide_encode_some dom Wdom) as [domain_ Hdom].
  destruct (wide_getLink_one_request ds slug dom (VString base)
              (VString credential) slug_ domain_ [] Hslug Hdom) as [link Hrun].
  rewrite Hrun in Hsame. cbn [snd app] in Hsame.
  destruct (Wide.well_formed slug') eqn:Wslug'.
  2: { rewrite wide_getLink_no_request in Hsame by now left. discriminate. }
  destruct (Wide.well_formed dom') eqn:Wdom'.
  2: { rewrite wide_getLink_no_request in Hsame by now right. discriminate. }
  destruct (wide_encode_some slug' Wslug') as [slug_' Hslug'].
  destruct (wide_encode_some dom' Wdom') as [domain_' Hdom'].
  destruct (wide_getLink_one_request ds' slug' dom' (VString base)
              (VString credential) slug_' domain_' [] Hslug' Hdom')
    as [link' Hrun'].
  rewrite Hrun' in Hsame. cbn [snd app to_string] in Hsame.
  injection Hsame as Hurl. apply append_inv_head in Hurl.
  change ("/rest/v1/links?"
          ++ ("slug=eq." ++ slug_ ++ "&domain=eq." ++ domain_ ++ "&select="
              ++ select_columns)
          = "/rest/v1/links?"
            ++ ("slug=eq." ++ slug_' ++ "&domain=eq." ++ domain_' ++ "&select="
                ++ select_columns))
    in Hurl.
  apply append_inv_head in Hurl.
  pose proof (lookup_query_parse slug_ domain_
                (wide_encode_escaped slug slug_ Hslug)
                (wide_encode_escaped dom domain_ Hdom)) as Hparse.
  rewrite Hurl, (lookup_query_parse slug_' domain_'
                   (wide_encode_escaped slug' slug_' Hslug')
                   (wide_encode_escaped dom' domain_' Hdom')) in Hparse.
  injection Hparse as Hs Hd. subst slug_' domain_'.
  split; eapply wide_encode_injective; eassumption.
Qed.

Lemma lookup_request_determines_link_witness :
  Wide.units "abc123" = Wide.units "abc123"
  /\ Wide.grinning_face = Wide.grinning_face.
Proof.
  apply (lookup_request_determines_link Examples.unreachable (Examples.store [])
           (Wide.units "abc123") (Wide.units "abc123")
           Wide.grinning_face Wide.grinning_face
           "https://db.supabase.co" "service-key").
  - reflexivity.
  - discriminate.
Defined.
